(** * pyrust-image-processor: effect processing and undo/redo orchestration

    A shallow embedding of [src/processing/batch_processor.py],
    [src/processing/commands.py] and the processing part of
    [src/gui/main_window.py], with the properties of the specification
    stated over it.

    Conventions.
    - Python [str] is [string]; [Optional[str]] is [option string].
    - Python [int] is [Z]; Python [float] is the kernel's binary64
      [float] (IEEE 754, the same format CPython uses).
    - [pathlib.Path] is modelled in its POSIX flavour.
    - [Dict[str, str]] is [gmap string string].
    - Objects that are shared by reference (the undo commands, which are
      held both by the undo stack and by the completion callback of a
      processing thread) live in a store indexed by allocation order. *)

From Stdlib Require Import ZArith String Ascii List PrimFloat FloatOps SpecFloat Uint63 Lia Sorted.
From stdpp Require Import base option list gmap strings.

Open Scope string_scope.
Open Scope list_scope.
Open Scope Z_scope.

(** ** pathlib (POSIX flavour) *)

Module Pathlib.

(** [str.split('/')]. *)
Fixpoint split_sep (s : string) : list string :=
  match s with
  | EmptyString => [EmptyString]
  | String c s' =>
      if Ascii.eqb c "/" then EmptyString :: split_sep s'
      else match split_sep s' with
           | h :: t => String c h :: t
           | [] => [String c EmptyString]
           end
  end.

(** A parsed path: [root] is [""], ["/"] or ["//"]; [tail] are the
    components after the root. *)
Record PurePath := mkPath { root : string; tail : list string }.

(** [posixpath.splitroot]: exactly two leading slashes are kept as the
    root ["//"], one or three and more give ["/"]. *)
Definition splitroot (p : string) : string * string :=
  match p with
  | String "/" (String "/" (String "/" r)) => ("/", String "/" (String "/" r))
  | String "/" (String "/" r) => ("//", r)
  | String "/" r => ("/", r)
  | _ => ("", p)
  end.

Definition is_part (x : string) : bool :=
  negb (String.eqb x "") && negb (String.eqb x ".").

(** [PurePath._parse_path]: empty and ["."] components are dropped. *)
Definition Path (p : string) : PurePath :=
  let '(r, rel) := splitroot p in
  mkPath r (filter (fun x => is_part x = true) (split_sep rel)).

(** [PurePath.name]: the final component, [""] when there is none. *)
Definition name (p : PurePath) : string := List.last (tail p) "".

(** [PurePath.__truediv__] with a [str] key: a rooted key replaces
    the left operand, a relative key is appended. *)
Definition truediv (p : PurePath) (key : string) : PurePath :=
  let k := Path key in
  if String.eqb (root k) "" then mkPath (root p) (tail p ++ tail k) else k.

(** [PurePath.__str__]. *)
Definition str (p : PurePath) : string :=
  match root p, tail p with
  | EmptyString, [] => "."
  | r, t => r +:+ String.concat "/" t
  end.

(** Whether a string contains the separator. *)
Fixpoint has_sep (s : string) : bool :=
  match s with
  | EmptyString => false
  | String c s' => Ascii.eqb c "/" || has_sep s'
  end.

End Pathlib.

(** ** batch_processor.py *)

Record BatchProcessor := mkBatchProcessor {
  effects_queue : list string;
  temp_dir : string;
  processed_images : gmap string string
}.

(** [BatchProcessor.__init__]; [tmp] is what [tempfile.mkdtemp()]
    returned. *)
Definition BatchProcessor_init (tmp : string) : BatchProcessor :=
  mkBatchProcessor [] tmp ∅.

Definition add_effect (effect : string) (self : BatchProcessor) : BatchProcessor :=
  mkBatchProcessor (effects_queue self ++ [effect]) (temp_dir self) (processed_images self).

Definition clear_effects (self : BatchProcessor) : BatchProcessor :=
  mkBatchProcessor [] (temp_dir self) (processed_images self).

Definition set_processed (file out : string) (self : BatchProcessor) : BatchProcessor :=
  mkBatchProcessor (effects_queue self) (temp_dir self) (<[file := out]> (processed_images self)).

Definition get_temp_path (self : BatchProcessor) (original_path : string) : string :=
  Pathlib.str
    (Pathlib.truediv (Pathlib.Path (temp_dir self))
                     ("temp_" +:+ Pathlib.name (Pathlib.Path original_path))).

(** The file name part of a path string, as the batch processor derives it. *)
Definition basename (p : string) : string := Pathlib.name (Pathlib.Path p).

(** ** Python numbers *)

(** [float(n)] for an [int]; exact for [0 <= n < 2^53], which covers
    every list length. *)
Definition py_float (n : Z) : float := PrimFloat.of_uint63 (Uint63.of_Z n).

(** [a / b] on two [int]s (true division). *)
Definition py_truediv (a b : Z) : float := PrimFloat.div (py_float a) (py_float b).

(** [int(x)] for a finite [float]: truncation toward zero. *)
Definition py_int (x : float) : Z :=
  match Prim2SF x with
  | S754_finite s m e =>
      let a := if (0 <=? e)%Z then Z.shiftl (Zpos m) e else Z.shiftr (Zpos m) (- e) in
      if s then - a else a
  | _ => 0
  end.

(** Truthiness of an [Optional[str]]: [None] and [""] are false. *)
Definition py_bool (s : option string) : bool :=
  match s with
  | None | Some EmptyString => false
  | Some _ => true
  end.

(** ** commands.py *)

Record ImageState := mkImageState {
  path : option string;
  effect : option string
}.

(** The [window] back-reference of a command is the single main window
    that every function below takes as its state. *)
Record ImageProcessCommand := mkCommand {
  effect_type : string;
  old_state : ImageState;
  new_state : option ImageState
}.

(** ** main_window.py: data *)

(** [ProcessingThread]: its three attributes, and what is connected to
    its two signals. [progress_slot] says whether [update_progress] is
    connected to [progress]; [finished_slot] is [Some command] when the
    lambda calling [processing_complete(path, command)] is connected to
    [finished], where [command] refers to a command of the store. *)
Record ProcessingThread := mkThread {
  input_path : string;
  thread_effect : string;
  output_path : string;
  progress_slot : bool;
  finished_slot : option (option nat)
}.

Inductive LogEntry :=
| InfoNoFilesOrEffects
| InfoBatchComplete
| InfoProcessingComplete (result_path : string)
| ErrorProcessing (e : string)
| ErrorBatch (e : string)
| ErrorResultMissing (result_path : string)
| ErrorResultLoadFailed (result_path : string).

(** What the window does to its collaborators, in program order. *)
Inductive Event :=
| EngineCall (input effect output : string)
| ThreadStarted (th : ProcessingThread)
| ProgressValue (v : Z)
| ProcessEvents
| Logged (l : LogEntry).

(** The pixmap shown by [image_label], identified by the file name it
    was constructed from. *)
Inductive Pixmap :=
| NoPixmap
| QPixmap (file_name : option string).

(** Modelled from the spec: [QUndoStack] is PySide6's, not part of the
    repository; section 4.1 gives its contract (a list of commands and a
    cursor separating the applied prefix from the undone suffix). *)
Record QUndoStack := mkStack {
  command_list : list nat;
  index : nat
}.

Record MainWindow := mkWindow {
  current_image : option string;
  current_processed_image : option string;
  batch_files : list string;
  undo_stack : QUndoStack;
  batch_processor : BatchProcessor;
  image_label : Pixmap;
  progress_bar_visible : bool;
  progress_bar_value : Z;
  effect_buttons_enabled : bool;
  save_button_enabled : bool;
  process_batch_button_enabled : bool;
  processing_thread : option ProcessingThread;
  commands : list ImageProcessCommand;
  trace : list Event
}.

(** [MainWindow.__init__]. *)
Definition MainWindow_init (tmp : string) : MainWindow :=
  mkWindow None None [] (mkStack [] 0) (BatchProcessor_init tmp)
           NoPixmap false (-1) false false false None [] [].

(** *** Field updates *)

Definition set_current_image v w :=
  mkWindow v (current_processed_image w) (batch_files w) (undo_stack w)
    (batch_processor w) (image_label w) (progress_bar_visible w)
    (progress_bar_value w) (effect_buttons_enabled w) (save_button_enabled w)
    (process_batch_button_enabled w) (processing_thread w) (commands w) (trace w).

Definition set_current_processed_image v w :=
  mkWindow (current_image w) v (batch_files w) (undo_stack w)
    (batch_processor w) (image_label w) (progress_bar_visible w)
    (progress_bar_value w) (effect_buttons_enabled w) (save_button_enabled w)
    (process_batch_button_enabled w) (processing_thread w) (commands w) (trace w).

Definition set_batch_files v w :=
  mkWindow (current_image w) (current_processed_image w) v (undo_stack w)
    (batch_processor w) (image_label w) (progress_bar_visible w)
    (progress_bar_value w) (effect_buttons_enabled w) (save_button_enabled w)
    (process_batch_button_enabled w) (processing_thread w) (commands w) (trace w).

Definition set_undo_stack v w :=
  mkWindow (current_image w) (current_processed_image w) (batch_files w) v
    (batch_processor w) (image_label w) (progress_bar_visible w)
    (progress_bar_value w) (effect_buttons_enabled w) (save_button_enabled w)
    (process_batch_button_enabled w) (processing_thread w) (commands w) (trace w).

Definition set_batch_processor v w :=
  mkWindow (current_image w) (current_processed_image w) (batch_files w)
    (undo_stack w) v (image_label w) (progress_bar_visible w)
    (progress_bar_value w) (effect_buttons_enabled w) (save_button_enabled w)
    (process_batch_button_enabled w) (processing_thread w) (commands w) (trace w).

Definition set_image_label v w :=
  mkWindow (current_image w) (current_processed_image w) (batch_files w)
    (undo_stack w) (batch_processor w) v (progress_bar_visible w)
    (progress_bar_value w) (effect_buttons_enabled w) (save_button_enabled w)
    (process_batch_button_enabled w) (processing_thread w) (commands w) (trace w).

Definition set_progress_bar_visible v w :=
  mkWindow (current_image w) (current_processed_image w) (batch_files w)
    (undo_stack w) (batch_processor w) (image_label w) v
    (progress_bar_value w) (effect_buttons_enabled w) (save_button_enabled w)
    (process_batch_button_enabled w) (processing_thread w) (commands w) (trace w).

Definition set_progress_bar_value v w :=
  mkWindow (current_image w) (current_processed_image w) (batch_files w)
    (undo_stack w) (batch_processor w) (image_label w) (progress_bar_visible w)
    v (effect_buttons_enabled w) (save_button_enabled w)
    (process_batch_button_enabled w) (processing_thread w) (commands w) (trace w).

Definition set_effect_buttons_enabled v w :=
  mkWindow (current_image w) (current_processed_image w) (batch_files w)
    (undo_stack w) (batch_processor w) (image_label w) (progress_bar_visible w)
    (progress_bar_value w) v (save_button_enabled w)
    (process_batch_button_enabled w) (processing_thread w) (commands w) (trace w).

Definition set_save_button_enabled v w :=
  mkWindow (current_image w) (current_processed_image w) (batch_files w)
    (undo_stack w) (batch_processor w) (image_label w) (progress_bar_visible w)
    (progress_bar_value w) (effect_buttons_enabled w) v
    (process_batch_button_enabled w) (processing_thread w) (commands w) (trace w).

Definition set_process_batch_button_enabled v w :=
  mkWindow (current_image w) (current_processed_image w) (batch_files w)
    (undo_stack w) (batch_processor w) (image_label w) (progress_bar_visible w)
    (progress_bar_value w) (effect_buttons_enabled w) (save_button_enabled w)
    v (processing_thread w) (commands w) (trace w).

Definition set_processing_thread v w :=
  mkWindow (current_image w) (current_processed_image w) (batch_files w)
    (undo_stack w) (batch_processor w) (image_label w) (progress_bar_visible w)
    (progress_bar_value w) (effect_buttons_enabled w) (save_button_enabled w)
    (process_batch_button_enabled w) v (commands w) (trace w).

Definition set_commands v w :=
  mkWindow (current_image w) (current_processed_image w) (batch_files w)
    (undo_stack w) (batch_processor w) (image_label w) (progress_bar_visible w)
    (progress_bar_value w) (effect_buttons_enabled w) (save_button_enabled w)
    (process_batch_button_enabled w) (processing_thread w) v (trace w).

Definition record (e : Event) w :=
  mkWindow (current_image w) (current_processed_image w) (batch_files w)
    (undo_stack w) (batch_processor w) (image_label w) (progress_bar_visible w)
    (progress_bar_value w) (effect_buttons_enabled w) (save_button_enabled w)
    (process_batch_button_enabled w) (processing_thread w) (commands w)
    (trace w ++ [e]).

(** [logging.info] / [logging.error]. *)
Definition logging (l : LogEntry) : MainWindow -> MainWindow := record (Logged l).

(** [progress_bar.setValue]. *)
Definition setValue (v : Z) (w : MainWindow) : MainWindow :=
  record (ProgressValue v) (set_progress_bar_value v w).

(** ** External collaborators *)

(** The effect engine [image_processor_rust.process_image]: it reports
    progress values through its callback, then returns the result path
    or raises. *)
Inductive Outcome :=
| Returned (result_path : string)
| Raised (e : string).

Record EngineResult := mkEngineResult {
  reported : list Z;
  outcome : Outcome
}.

(** The engine's answer may depend on how many calls came before (so
    that "call number j fails" can be said) and on its three arguments. *)
Definition Engine := nat -> string -> string -> string -> EngineResult.

(** What the window observes of the file system: [Path(p).exists()] and
    whether [QPixmap(p)] is non-null. *)
Record FileSystem := mkFileSystem {
  file_exists : string -> bool;
  decodable : string -> bool
}.

(** ** State with exceptions *)

Inductive Result (A : Type) :=
| Ok (a : A)
| Exception (e : string).
Arguments Ok {A} a.
Arguments Exception {A} e.

(** A Python statement sequence over the window: it ends normally with a
    value or with a raised exception, and in both cases leaves a state. *)
Definition M (A : Type) : Type := MainWindow -> Result A * MainWindow.

#[global] Instance M_ret : MRet M := fun A a w => (Ok a, w).

#[global] Instance M_bind : MBind M := fun A B f m w =>
  match m w with
  | (Ok a, w') => f a w'
  | (Exception e, w') => (Exception e, w')
  end.

Definition gets {A} (f : MainWindow -> A) : M A := fun w => (Ok (f w), w).

Definition lift (f : MainWindow -> MainWindow) : M unit := fun w => (Ok tt, f w).

Definition try_except {A} (body : M A) (handler : string -> M A) : M A :=
  fun w =>
    match body w with
    | (Ok a, w') => (Ok a, w')
    | (Exception e, w') => handler e w'
    end.

Definition try_finally {A} (body : M A) (final : MainWindow -> MainWindow) : M A :=
  fun w => let '(r, w') := body w in (r, final w').

(** ** main_window.py: operations *)

(** Projections of a trace: engine calls, progress-bar values, started
    threads and log entries, oldest first. *)
Definition calls_of (tr : list Event) : list (string * string * string) :=
  omap (fun ev => match ev with
                  | EngineCall i e o => Some (i, e, o)
                  | _ => None
                  end) tr.

Definition values_of (tr : list Event) : list Z :=
  omap (fun ev => match ev with ProgressValue v => Some v | _ => None end) tr.

Definition threads_of (tr : list Event) : list ProcessingThread :=
  omap (fun ev => match ev with ThreadStarted th => Some th | _ => None end) tr.

Definition log_of (tr : list Event) : list LogEntry :=
  omap (fun ev => match ev with Logged l => Some l | _ => None end) tr.

(** The engine calls made so far. *)
Definition engine_calls (w : MainWindow) : list (string * string * string) :=
  calls_of (trace w).

(** The values given to [progress_bar.setValue] so far. *)
Definition progress_values (w : MainWindow) : list Z := values_of (trace w).

(** The threads started with [QThread.start] so far. *)
Definition started_threads (w : MainWindow) : list ProcessingThread :=
  threads_of (trace w).

(** The log so far. *)
Definition log (w : MainWindow) : list LogEntry := log_of (trace w).

(** The file the label's pixmap was made from. *)
Definition displayed (w : MainWindow) : option string :=
  match image_label w with
  | NoPixmap => None
  | QPixmap f => f
  end.

Definition load_specific_image (file_name : option string) (w : MainWindow) : MainWindow :=
  let w := set_current_image file_name w in
  let w := set_image_label (QPixmap file_name) w in
  set_effect_buttons_enabled true w.

(** [load_batch_images], given what the file dialog returned. *)
Definition load_batch_images (file_names : list string) (w : MainWindow) : MainWindow :=
  match file_names with
  | [] => w
  | _ =>
      let w := set_batch_files (batch_files w ++ file_names) w in
      set_process_batch_button_enabled (bool_decide (batch_files w <> [])) w
  end.

Definition update_progress (value : Z) : MainWindow -> MainWindow := setValue value.

Section Processing.

Variable engine : Engine.
Variable fs : FileSystem.

Definition processing_complete (result_path : string) (command : option nat)
           (w : MainWindow) : MainWindow :=
  let w := logging (InfoProcessingComplete result_path) w in
  let w := set_progress_bar_visible false w in
  if negb (file_exists fs result_path) then
    logging (ErrorResultMissing result_path) w
  else if negb (decodable fs result_path) then
    logging (ErrorResultLoadFailed result_path) w
  else
    let w := set_image_label (QPixmap (Some result_path)) w in
    let w := set_current_processed_image (Some result_path) w in
    let w :=
      match command with
      | Some c =>
          set_commands
            (alter (fun cmd => mkCommand (effect_type cmd) (old_state cmd)
                      (Some (mkImageState (Some result_path) (Some (effect_type cmd)))))
                   c (commands w)) w
      | None => w
      end in
    set_save_button_enabled true w.

(** Emission of the two signals: the connected slot, if any, runs. *)
Definition emit_progress (th : ProcessingThread) (x : Z) (w : MainWindow) : MainWindow :=
  if progress_slot th then update_progress x w else w.

Definition emit_finished (th : ProcessingThread) (result_path : string)
           (w : MainWindow) : MainWindow :=
  match finished_slot th with
  | Some command => processing_complete result_path command w
  | None => w
  end.

(** The call [image_processor_rust.process_image(input, effect, output, cb)]. *)
Definition engine_process_image (th : ProcessingThread) : M string :=
  fun w =>
    let r := engine (length (engine_calls w))
                    (input_path th) (thread_effect th) (output_path th) in
    let w := record (EngineCall (input_path th) (thread_effect th) (output_path th)) w in
    let w := foldl (fun w x => emit_progress th x w) w (reported r) in
    match outcome r with
    | Returned result_path => (Ok result_path, w)
    | Raised e => (Exception e, w)
    end.

(** [ProcessingThread.run]. *)
Definition run (th : ProcessingThread) : M unit :=
  try_except
    (result_path ← engine_process_image th;
     lift (emit_finished th result_path))
    (fun e => lift (logging (ErrorProcessing e))).

Definition process_image_internal (effect_type : string) (command : option nat)
           (w : MainWindow) : MainWindow :=
  if negb (py_bool (current_image w)) then w
  else
    let w := set_progress_bar_visible true w in
    let temp_output := get_temp_path (batch_processor w) (default "" (current_image w)) in
    let th := mkThread (default "" (current_image w)) effect_type temp_output
                       true (Some command) in
    let w := set_processing_thread (Some th) w in
    record (ThreadStarted th) w.

(** The worker thread stored in [processing_thread] runs to its end
    and the slots connected to its signals are executed. *)
Definition thread_finishes (w : MainWindow) : MainWindow :=
  match processing_thread w with
  | Some th => snd (run th w)
  | None => w
  end.

(** *** commands.py: [ImageProcessCommand] methods *)

(** [ImageProcessCommand.__init__]: the new command is allocated in
    the store; the result is its reference. *)
Definition ImageProcessCommand_init (effect_type : string) (w : MainWindow)
  : nat * MainWindow :=
  (length (commands w),
   set_commands (commands w ++ [mkCommand effect_type
                                  (mkImageState (current_image w) None) None]) w).

Definition redo (self : nat) (w : MainWindow) : MainWindow :=
  match commands w !! self with
  | Some cmd =>
      match new_state cmd with
      | Some ns => load_specific_image (path ns) w
      | None => process_image_internal (effect_type cmd) (Some self) w
      end
  | None => w
  end.

Definition undo (self : nat) (w : MainWindow) : MainWindow :=
  match commands w !! self with
  | Some cmd => load_specific_image (path (old_state cmd)) w
  | None => w
  end.

(** *** The undo stack *)

(** Modelled from the spec: [QUndoStack.push] (PySide6), section 4.1:
    "truncates any undone suffix, appends command, executes it (calls
    redo), advances cursor". *)
Definition stack_push (cmd : nat) (w : MainWindow) : MainWindow :=
  let st := undo_stack w in
  let w := set_undo_stack
             (mkStack (take (index st) (command_list st) ++ [cmd]) (index st)) w in
  let w := redo cmd w in
  set_undo_stack (mkStack (command_list (undo_stack w)) (S (index (undo_stack w)))) w.

(** Modelled from the spec: [QUndoStack.undo] (PySide6), section 4.1:
    "no-op if cursor at start; otherwise executes the command's
    inverse and moves the cursor back one". *)
Definition stack_undo (w : MainWindow) : MainWindow :=
  let st := undo_stack w in
  match index st with
  | O => w
  | S i =>
      match command_list st !! i with
      | Some cmd =>
          let w := undo cmd w in
          set_undo_stack (mkStack (command_list (undo_stack w)) i) w
      | None => w
      end
  end.

(** Modelled from the spec: [QUndoStack.redo] (PySide6), section 4.1:
    "no-op if cursor at end; otherwise re-applies the command at the
    new cursor position". *)
Definition stack_redo (w : MainWindow) : MainWindow :=
  let st := undo_stack w in
  match command_list st !! index st with
  | Some cmd =>
      let w := redo cmd w in
      set_undo_stack (mkStack (command_list (undo_stack w)) (S (index (undo_stack w)))) w
  | None => w
  end.

Definition process_image (effect_type : string) (w : MainWindow) : MainWindow :=
  let '(command, w) := ImageProcessCommand_init effect_type w in
  let w := stack_push command w in
  let w := set_batch_processor (add_effect effect_type (batch_processor w)) w in
  let w := set_save_button_enabled true w in
  set_process_batch_button_enabled true w.

(** *** Batch processing *)

(** The inner loop of [process_batch]: [for effect in effects_queue]. *)
Fixpoint effects_loop (file : string) (total_operations : Z) (effects : list string)
         (current_input : string) (completed_operations : Z) : M (string * Z) :=
  match effects with
  | [] => mret (current_input, completed_operations)
  | effect :: rest =>
      temp_output ← gets (fun w => get_temp_path (batch_processor w) file);
      let thread := mkThread current_input effect temp_output false None in
      _ ← run thread;
      let current_input := temp_output in
      let completed_operations := completed_operations + 1 in
      let progress :=
        py_int (PrimFloat.mul (py_truediv completed_operations total_operations)
                              (py_float 100)) in
      _ ← lift (setValue progress);
      _ ← lift (record ProcessEvents);
      effects_loop file total_operations rest current_input completed_operations
  end.

(** The outer loop: [for file in batch_files]. *)
Fixpoint files_loop (total_operations : Z) (files : list string)
         (completed_operations : Z) : M Z :=
  match files with
  | [] => mret completed_operations
  | file :: rest =>
      effects ← gets (fun w => effects_queue (batch_processor w));
      r ← effects_loop file total_operations effects file completed_operations;
      _ ← lift (fun w => set_batch_processor
                           (set_processed file (fst r) (batch_processor w)) w);
      files_loop total_operations rest (snd r)
  end.

Definition process_batch_body : M unit :=
  fun w =>
    match batch_files w, effects_queue (batch_processor w) with
    | [], _ | _, [] => (Ok tt, logging InfoNoFilesOrEffects w)
    | _, _ =>
        let w := set_progress_bar_visible true w in
        let w := setValue 0 w in
        let total_operations :=
          Z.of_nat (length (batch_files w))
          * Z.of_nat (length (effects_queue (batch_processor w))) in
        try_finally
          (try_except
             (_ ← files_loop total_operations (batch_files w) 0;
              _ ← lift (set_save_button_enabled true);
              lift (logging InfoBatchComplete))
             (fun e => lift (logging (ErrorBatch e))))
          (set_progress_bar_visible false) w
    end.

Definition process_batch (w : MainWindow) : MainWindow := snd (process_batch_body w).

End Processing.

(** ** Closed forms used to state the properties *)

(** [int((completed / total) * 100)]. *)
Definition batch_progress (completed total : Z) : Z :=
  py_int (PrimFloat.mul (py_truediv completed total) (py_float 100)).

(** The engine calls of one file: the first effect reads the file, every
    later one reads the temp path written by its predecessor. *)
Fixpoint file_calls (bp : BatchProcessor) (file current : string) (effects : list string)
  : list (string * string * string) :=
  match effects with
  | [] => []
  | e :: rest =>
      (current, e, get_temp_path bp file)
        :: file_calls bp file (get_temp_path bp file) rest
  end.

(** File-major, effect-minor. *)
Definition batch_calls (bp : BatchProcessor) (files effects : list string)
  : list (string * string * string) :=
  flat_map (fun f => file_calls bp f f effects) files.

(** [processed_images] after every file of [files] got its entry. *)
Definition batch_processed (bp : BatchProcessor) (files : list string)
           (m : gmap string string) : gmap string string :=
  foldl (fun m f => <[f := get_temp_path bp f]> m) m files.

Section BatchEvents.

Variable engine : Engine.
Variable bp : BatchProcessor.
Variable total : Z.

(** Events of one (file, effect) step, the [n]-th engine call overall
    (counting from 0), after [c] completed operations. *)
Definition step_events (n : nat) (cur e out : string) (c : Z) : list Event :=
  EngineCall cur e out
    :: match outcome (engine n cur e out) with
       | Raised err => [Logged (ErrorProcessing err)]
       | Returned _ => []
       end
    ++ [ProgressValue (batch_progress (c + 1) total); ProcessEvents].

Fixpoint file_events (n : nat) (file cur : string) (effects : list string) (c : Z)
  : list Event :=
  match effects with
  | [] => []
  | e :: rest =>
      step_events n cur e (get_temp_path bp file) c
        ++ file_events (S n) file (get_temp_path bp file) rest (c + 1)
  end.

Fixpoint batch_events (n : nat) (files effects : list string) (c : Z) : list Event :=
  match files with
  | [] => []
  | f :: rest =>
      file_events n f f effects c
        ++ batch_events (n + length effects)%nat rest effects
                        (c + Z.of_nat (length effects))
  end.

End BatchEvents.

(** The window [w] after batch steps that appended [evs] to the trace,
    left [v] on the progress bar and [m] in [processed_images]; nothing
    else differs from [w]. *)
Definition batch_frame (w : MainWindow) (m : gmap string string) (v : Z)
           (evs : list Event) : MainWindow :=
  mkWindow (current_image w) (current_processed_image w) (batch_files w)
    (undo_stack w)
    (mkBatchProcessor (effects_queue (batch_processor w))
                      (temp_dir (batch_processor w)) m)
    (image_label w) (progress_bar_visible w) v (effect_buttons_enabled w)
    (save_button_enabled w) (process_batch_button_enabled w)
    (processing_thread w) (commands w) (trace w ++ evs).

(** ** Scenarios *)

(** An engine that reports two progress values and writes its output. *)
Definition engine_ok : Engine :=
  fun _ _ _ output => mkEngineResult [50; 100] (Returned output).

(** An engine whose call number [j] (counting from 1) raises. *)
Definition engine_failing_at (j : nat) : Engine :=
  fun n _ _ output =>
    if (S n =? j)%nat then mkEngineResult [] (Raised "engine failure")
    else mkEngineResult [50; 100] (Returned output).

(** Every path exists and decodes. *)
Definition fs_ok : FileSystem := mkFileSystem (fun _ => true) (fun _ => true).

(** No path exists. *)
Definition fs_missing : FileSystem := mkFileSystem (fun _ => false) (fun _ => true).

(** A fresh window with the given batch files and queued effects. *)
Definition batch_window (tmp : string) (files effects : list string) : MainWindow :=
  let w := load_batch_images files (MainWindow_init tmp) in
  set_batch_processor (foldl (fun bp e => add_effect e bp) (batch_processor w) effects) w.

(** The progress values set by the steps of a batch run, that is, those
    after the initial [setValue(0)]. *)
Definition step_progress (engine : Engine) (fs : FileSystem) (w : MainWindow) : list Z :=
  drop (S (length (progress_values w))) (progress_values (process_batch engine fs w)).

(** The cached result path of the command [c], when its [new_state] is
    populated. *)
Definition cached (w : MainWindow) (c : nat) : option (option string) :=
  match commands w !! c with
  | Some cmd =>
      match new_state cmd with
      | Some ns => Some (path ns)
      | None => None
      end
  | None => None
  end.

(** One interactive edit carried to its end: the effect button is
    pressed, the worker thread runs and its completion is handled. *)
Definition apply_effect (engine : Engine) (fs : FileSystem) (effect_type : string)
           (w : MainWindow) : MainWindow :=
  thread_finishes engine fs (process_image effect_type w).

Definition apply_all (engine : Engine) (fs : FileSystem) (effects : list string)
           (w : MainWindow) : MainWindow :=
  foldl (fun w e => apply_effect engine fs e w) w effects.

(** The engine returns on every call, and what it returns exists and
    decodes. *)
Definition engine_succeeds (engine : Engine) (fs : FileSystem) : Prop :=
  forall n i e o, exists r,
    outcome (engine n i e o) = Returned r
    /\ file_exists fs r = true /\ decodable fs r = true.

(** The thread [process_image_internal] builds for the current image. *)
Definition interactive_thread (w : MainWindow) (effect_type : string) (command : nat)
  : ProcessingThread :=
  mkThread (default "" (current_image w)) effect_type
           (get_temp_path (batch_processor w) (default "" (current_image w)))
           true (Some (Some command)).

(** The single-image scenario of the specification: [a.png] is loaded
    and [grayscale] is applied to its end. *)
Definition grayscale_scenario : MainWindow :=
  apply_effect engine_ok fs_ok "grayscale"
    (load_specific_image (Some "a.png") (MainWindow_init "/tmp/tmpab12")).

(** A command created while no image was loaded, then an image loaded. *)
Definition empty_old_state_scenario : MainWindow :=
  load_specific_image (Some "a.png")
    (process_image "blur" (MainWindow_init "/tmp/tmpab12")).

(** ** main_window.py: loading, previewing and saving *)

(** [update_batch_list]. The list widget is refilled with
    [Path(file).name] of every batch file, see [batch_list]; the button
    follows [bool(batch_files)]. *)
Definition update_batch_list (w : MainWindow) : MainWindow :=
  set_process_batch_button_enabled (bool_decide (batch_files w <> [])) w.

(** The texts of the items of the [batch_list] widget. Every statement
    that changes [batch_files] is followed by [update_batch_list], so the
    widget always shows the file names of [batch_files], in order. *)
Definition batch_list (w : MainWindow) : list string := map basename (batch_files w).

(** [load_image], given what the file dialog returned. *)
Definition load_image (file_names : list string) (w : MainWindow) : MainWindow :=
  match file_names with
  | [] => w
  | first :: rest =>
      let w := load_specific_image (Some first) w in
      match rest with
      | [] => w
      | _ => update_batch_list (set_batch_files (batch_files w ++ rest) w)
      end
  end.

(** [next(path for path in batch_files if Path(path).name == text)]:
    the first match, [StopIteration] when there is none. *)
Fixpoint next_with_name (text : string) (files : list string) : Result string :=
  match files with
  | [] => Exception "StopIteration"
  | p :: rest =>
      if String.eqb (basename p) text then Ok p else next_with_name text rest
  end.

(** [preview_batch_image(item)]: [text] is [item.text()] and
    [is_last_selected] the value of
    [selected_items and item == selected_items[-1]]. *)
Definition preview_batch_image (text : string) (is_last_selected : bool) : M unit :=
  fun w =>
    if is_last_selected then
      match next_with_name text (batch_files w) with
      | Ok file_path => (Ok tt, load_specific_image (Some file_path) w)
      | Exception e => (Exception e, w)
      end
    else (Ok tt, w).

(** What the two save functions log. *)
Inductive SaveLog :=
| InfoSavedCurrent (file_name : string)
| ErrorSavingFile (e : string)
| InfoNoProcessedImages
| InfoSavedAll (save_dir : string)
| ErrorSavingFiles (e : string).

(** What the save functions do, in program order: the calls of
    [shutil.copy2] (made, whether or not they then raise) and the log
    entries. They read the window and never change it. *)
Inductive SaveEvent :=
| Copy (src dst : string)
| SaveLogged (l : SaveLog).

(** [shutil.copy2(src, dst)]: [None] when the copy is made, [Some e]
    when it raises [e]. *)
Definition Copier := string -> string -> option string.

(** Reading the local name [shutil] before the [import shutil] that
    binds it was executed. *)
Definition unbound_shutil : string := "UnboundLocalError: shutil".

(** [Path(None)]. *)
Definition path_of_none : string := "TypeError: Path(None)".

(** [str(Path(save_dir) / f"processed_{Path(original).name}")]. *)
Definition processed_output_path (save_dir original : string) : string :=
  Pathlib.str (Pathlib.truediv (Pathlib.Path save_dir)
                               ("processed_" +:+ Pathlib.name (Pathlib.Path original))).

(** [save_current_image], given the file name the dialog returned
    ([""] when it was cancelled). *)
Definition save_current_image (copy2 : Copier) (file_name : string) (w : MainWindow)
  : list SaveEvent :=
  match current_processed_image w with
  | None | Some EmptyString => []
  | Some cpi =>
      match file_name with
      | EmptyString => []
      | _ =>
          Copy cpi file_name
            :: match copy2 cpi file_name with
               | None => [SaveLogged (InfoSavedCurrent file_name)]
               | Some e => [SaveLogged (ErrorSavingFile e)]
               end
      end
  end.

(** The [for original, processed in processed_images.items()] loop of
    [save_processed_images]; [shutil] says whether the local name is
    bound. The result is how the loop ended and what it did. *)
Fixpoint copy_processed (copy2 : Copier) (shutil : bool) (save_dir : string)
         (items : list (string * string)) : Result unit * list SaveEvent :=
  match items with
  | [] => (Ok tt, [])
  | (original, processed) :: rest =>
      let output_path := processed_output_path save_dir original in
      if shutil then
        match copy2 processed output_path with
        | Some e => (Exception e, [Copy processed output_path])
        | None =>
            let '(r, evs) := copy_processed copy2 shutil save_dir rest in
            (r, Copy processed output_path :: evs)
        end
      else (Exception unbound_shutil, [])
  end.

(** The [if self.current_processed_image:] block of
    [save_processed_images]: how it ended, what it did, and whether it
    executed [import shutil]. *)
Definition copy_current (copy2 : Copier) (save_dir : string) (w : MainWindow)
  : Result unit * list SaveEvent * bool :=
  match current_processed_image w with
  | None | Some EmptyString => (Ok tt, [], false)
  | Some cpi =>
      match current_image w with
      | None => (Exception path_of_none, [], false)
      | Some ci =>
          let output_path := processed_output_path save_dir ci in
          match copy2 cpi output_path with
          | Some e => (Exception e, [Copy cpi output_path], true)
          | None => (Ok tt, [Copy cpi output_path], true)
          end
      end
  end.

(** [save_processed_images], given the directory the dialog returned
    ([""] when it was cancelled). [items] is
    [processed_images.items()] in the dictionary's iteration order
    (insertion order), which the map does not record. *)
Definition save_processed_images (copy2 : Copier) (save_dir : string)
           (items : list (string * string)) (w : MainWindow) : list SaveEvent :=
  if bool_decide (processed_images (batch_processor w) = ∅)
     && negb (py_bool (current_processed_image w))
  then [SaveLogged InfoNoProcessedImages]
  else
    match save_dir with
    | EmptyString => []
    | _ =>
        match copy_current copy2 save_dir w with
        | (Exception e, evs, _) => evs ++ [SaveLogged (ErrorSavingFiles e)]
        | (Ok _, evs, shutil) =>
            match copy_processed copy2 shutil save_dir items with
            | (Exception e, evs') => evs ++ evs' ++ [SaveLogged (ErrorSavingFiles e)]
            | (Ok _, evs') => evs ++ evs' ++ [SaveLogged (InfoSavedAll save_dir)]
            end
        end
    end.

(** The [shutil.copy2] calls among some save events. *)
Definition copies_of (evs : list SaveEvent) : list (string * string) :=
  omap (fun ev => match ev with Copy s d => Some (s, d) | _ => None end) evs.

(** The window [w] after a connected progress signal delivered [evs]
    and left [v] on the progress bar; nothing else differs from [w]. *)
Definition progress_frame (w : MainWindow) (v : Z) (evs : list Event) : MainWindow :=
  mkWindow (current_image w) (current_processed_image w) (batch_files w)
    (undo_stack w) (batch_processor w) (image_label w) (progress_bar_visible w) v
    (effect_buttons_enabled w) (save_button_enabled w)
    (process_batch_button_enabled w) (processing_thread w) (commands w)
    (trace w ++ evs).

(** An engine that always raises. *)
Definition engine_down : Engine :=
  fun _ _ _ _ => mkEngineResult [10] (Raised "engine failure").

(** The engine returns its output path on every call. *)
Definition engine_writes_output (engine : Engine) : Prop :=
  forall n i e o, outcome (engine n i e o) = Returned o.

(** A copier for which every copy succeeds, and one that fails on a
    given destination. *)
Definition copy_ok : Copier := fun _ _ => None.

Definition copy_failing_on (dst : string) : Copier :=
  fun _ d => if String.eqb d dst then Some "disk full" else None.

(** The log entries [run] leaves for the calls [calls], the first of
    which is engine call number [n] (counting from 0): one per call that
    raises. *)
Fixpoint call_errors (engine : Engine) (n : nat) (calls : list (string * string * string))
  : list LogEntry :=
  match calls with
  | [] => []
  | (i, e, o) :: rest =>
      match outcome (engine n i e o) with
      | Raised err => [ErrorProcessing err]
      | Returned _ => []
      end ++ call_errors engine (S n) rest
  end.

(** The [shutil.copy2] calls of the loop of [save_processed_images]
    for the items [items], as (source, destination) pairs. *)
Definition save_attempts (save_dir : string) (items : list (string * string))
  : list (string * string) :=
  map (fun it => (it.2, processed_output_path save_dir it.1)) items.

Definition copy_events (attempts : list (string * string)) : list SaveEvent :=
  map (fun sd => Copy sd.1 sd.2) attempts.

(** * Properties *)

(** ** Paths *)

Module PathlibFacts.
Import Pathlib.

Lemma split_sep_not_nil s : split_sep s <> [].
Proof.
  destruct s as [|c s]; simpl; [discriminate|].
  destruct (Ascii.eqb c "/"); [discriminate|].
  destruct (split_sep s); discriminate.
Qed.

Lemma split_sep_app a b :
  split_sep (a +:+ String "/" b) = split_sep a ++ split_sep b.
Proof.
  induction a as [|c a IH]; simpl; [reflexivity|].
  destruct (Ascii.eqb c "/"); rewrite IH; [reflexivity|].
  pose proof (split_sep_not_nil a) as Hne.
  destruct (split_sep a); [contradiction|reflexivity].
Qed.

Lemma split_sep_whole s : has_sep s = false -> split_sep s = [s].
Proof.
  induction s as [|c s IH]; simpl; [reflexivity|].
  destruct (Ascii.eqb c "/"); simpl; [discriminate|].
  intros H. rewrite (IH H). reflexivity.
Qed.

Lemma split_sep_no_sep s : Forall (fun x => has_sep x = false) (split_sep s).
Proof.
  induction s as [|c s IH]; simpl.
  - repeat constructor.
  - destruct (Ascii.eqb c "/") eqn:E; [constructor; [reflexivity|exact IH]|].
    destruct (split_sep s) as [|h t]; [repeat constructor; simpl; rewrite E; reflexivity|].
    inversion IH; subst. constructor; [simpl; rewrite E; assumption|assumption].
Qed.

(** Stripping the root only removes leading empty components, which
    the parser drops anyway. *)
Lemma tail_Path s :
  tail (Path s) = filter (fun x => is_part x = true) (split_sep s).
Proof.
  assert (Hdrop : forall r, filter (fun x => is_part x = true) (split_sep (String "/" r))
                            = filter (fun x => is_part x = true) (split_sep r)).
  { intros r. simpl. rewrite filter_cons_False; [reflexivity|]. simpl. discriminate. }
  unfold Path.
  destruct s as [|c1 s1]; [reflexivity|].
  destruct (ascii_dec c1 "/") as [->|N1].
  2:{ assert (splitroot (String c1 s1) = ("", String c1 s1)) as ->; [|reflexivity].
      destruct c1 as [[] [] [] [] [] [] [] []]; try reflexivity. contradiction. }
  rewrite Hdrop.
  destruct s1 as [|c2 s2]; [reflexivity|].
  destruct (ascii_dec c2 "/") as [->|N2].
  2:{ assert (splitroot (String "/" (String c2 s2)) = ("/", String c2 s2)) as ->; [|reflexivity].
      destruct c2 as [[] [] [] [] [] [] [] []]; try reflexivity. contradiction. }
  destruct s2 as [|c3 s3]; [reflexivity|].
  destruct (ascii_dec c3 "/") as [->|N3].
  - cbn [splitroot]. cbn [tail]. rewrite !Hdrop. reflexivity.
  - assert (splitroot (String "/" (String "/" (String c3 s3))) = ("//", String c3 s3)) as ->.
    { destruct c3 as [[] [] [] [] [] [] [] []]; try reflexivity. contradiction. }
    cbn [tail]. rewrite Hdrop. reflexivity.
Qed.

Lemma name_no_sep s : has_sep (name (Path s)) = false.
Proof.
  unfold name. rewrite tail_Path.
  assert (H : Forall (fun x => has_sep x = false)
                     (filter (fun x => is_part x = true) (split_sep s))).
  { apply Forall_forall. intros x Hx.
    apply list_elem_of_filter in Hx as [_ Hx].
    pose proof (split_sep_no_sep s) as F. rewrite Forall_forall in F.
    apply F. exact Hx. }
  induction H as [|x l Hx Hl IH]; [reflexivity|].
  destruct l; [exact Hx|exact IH].
Qed.

(** The last component of a path string is its name. *)
Lemma name_last_component dir b :
  is_part b = true -> has_sep b = false ->
  name (Path (dir +:+ String "/" b)) = b.
Proof.
  intros Hp Hs. unfold name.
  rewrite tail_Path, split_sep_app, filter_app, (split_sep_whole b Hs).
  rewrite filter_cons_True by exact Hp.
  rewrite filter_nil. apply List.last_last.
Qed.

(** A plain file name is its own name. *)
Lemma name_plain b : is_part b = true -> has_sep b = false -> name (Path b) = b.
Proof.
  intros Hp Hs. unfold name.
  rewrite tail_Path, (split_sep_whole b Hs), filter_cons_True by exact Hp.
  reflexivity.
Qed.

Lemma Path_temp_name n :
  has_sep n = false -> Path ("temp_" +:+ n) = mkPath "" ["temp_" +:+ n].
Proof.
  intros H.
  assert (Hs : has_sep ("temp_" +:+ n) = false) by (simpl; exact H).
  unfold Path.
  change (splitroot ("temp_" +:+ n)) with ("", "temp_" +:+ n).
  cbv beta iota. rewrite (split_sep_whole _ Hs).
  rewrite filter_cons_True by reflexivity. reflexivity.
Qed.

Lemma append_assoc (a b c : string) : (a +:+ b) +:+ c = a +:+ (b +:+ c).
Proof.
  induction a as [|x a IH]; [reflexivity|].
  change (String x ((a +:+ b) +:+ c) = String x (a +:+ (b +:+ c))).
  rewrite IH. reflexivity.
Qed.

Lemma concat_snoc sep l x :
  l <> [] -> String.concat sep (l ++ [x]) = String.concat sep l +:+ sep +:+ x.
Proof.
  induction l as [|a l IH]; [contradiction|intros _].
  destruct l as [|b l].
  - reflexivity.
  - change (String.concat sep ((a :: b :: l) ++ [x]))
      with (a +:+ sep +:+ String.concat sep ((b :: l) ++ [x])).
    rewrite IH by discriminate.
    change (String.concat sep (a :: b :: l)) with (a +:+ sep +:+ String.concat sep (b :: l)).
    rewrite !append_assoc. reflexivity.
Qed.

End PathlibFacts.

(** The name used for the temporary file never contains a separator, so
    it is appended to the temp directory as one component. *)
Lemma truediv_temp_name (d : Pathlib.PurePath) (p : string) :
  Pathlib.truediv d ("temp_" +:+ basename p)
  = Pathlib.mkPath (Pathlib.root d) (Pathlib.tail d ++ ["temp_" +:+ basename p]).
Proof.
  unfold Pathlib.truediv, basename.
  rewrite PathlibFacts.Path_temp_name by apply PathlibFacts.name_no_sep.
  reflexivity.
Qed.

Lemma str_nonempty_tail (r : string) (t : list string) :
  t <> [] -> Pathlib.str (Pathlib.mkPath r t) = r +:+ String.concat "/" t.
Proof.
  intros Ht. unfold Pathlib.str. cbn [Pathlib.root Pathlib.tail].
  destruct r; [|reflexivity]. destruct t; [contradiction|reflexivity].
Qed.

(** C8. For every original path [p] and every batch processor with temp
    directory [d], [get_temp_path] returns the parsed [d] with the single
    component ["temp_" + basename p] appended; when [d] is already in
    normal form (as a directory returned by [mkdtemp] is) this is the
    string [d + "/" + "temp_" + basename p]. The result only depends on
    the temp directory, which no method of the batch processor changes, so
    repeated calls re-derive the same path. *)
Theorem get_temp_path_spec (bp : BatchProcessor) (p : string) :
  let d := Pathlib.Path (temp_dir bp) in
  get_temp_path bp p
  = Pathlib.root d +:+ String.concat "/" (Pathlib.tail d ++ ["temp_" +:+ basename p])
  /\ (Pathlib.str d = temp_dir bp -> Pathlib.tail d <> [] ->
      get_temp_path bp p = temp_dir bp +:+ "/" +:+ "temp_" +:+ basename p)
  /\ (forall e, get_temp_path (add_effect e bp) p = get_temp_path bp p)
  /\ get_temp_path (clear_effects bp) p = get_temp_path bp p
  /\ (forall f o, get_temp_path (set_processed f o bp) p = get_temp_path bp p).
Proof.
  intros d.
  assert (E : get_temp_path bp p
              = Pathlib.root d +:+ String.concat "/"
                  (Pathlib.tail d ++ ["temp_" +:+ basename p])).
  { unfold get_temp_path. fold (basename p). fold d.
    rewrite truediv_temp_name. apply str_nonempty_tail.
    destruct (Pathlib.tail d); discriminate. }
  split; [exact E|]. split; [|repeat split; reflexivity].
  intros Hd Ht. rewrite E, PathlibFacts.concat_snoc by exact Ht.
  rewrite <- PathlibFacts.append_assoc.
  rewrite <- (str_nonempty_tail _ _ Ht).
  destruct d as [r t]. cbn [Pathlib.root Pathlib.tail] in *. rewrite Hd. reflexivity.
Qed.

(** The temp path of [/home/u/a.png] under [/tmp/tmpab12]. *)
Lemma get_temp_path_spec_witness :
  get_temp_path (BatchProcessor_init "/tmp/tmpab12") "/home/u/a.png"
  = "/tmp/tmpab12/temp_a.png".
Proof.
  destruct (get_temp_path_spec (BatchProcessor_init "/tmp/tmpab12") "/home/u/a.png")
    as (_ & H & _).
  rewrite H; [reflexivity|reflexivity|discriminate].
Defined.

(** ** Trace projections *)

Lemma calls_of_app (a b : list Event) : calls_of (a ++ b) = calls_of a ++ calls_of b.
Proof. apply omap_app. Qed.

Lemma values_of_app (a b : list Event) : values_of (a ++ b) = values_of a ++ values_of b.
Proof. apply omap_app. Qed.

Lemma log_of_app (a b : list Event) : log_of (a ++ b) = log_of a ++ log_of b.
Proof. apply omap_app. Qed.

Lemma threads_of_app (a b : list Event) :
  threads_of (a ++ b) = threads_of a ++ threads_of b.
Proof. apply omap_app. Qed.

(** ** The processing thread run synchronously *)

Section BatchFacts.

Variable engine : Engine.
Variable fs : FileSystem.

(** [run] catches every exception of the engine: it always ends
    normally. *)
Lemma run_ok (th : ProcessingThread) (w : MainWindow) :
  run engine fs th w = (Ok tt, snd (run engine fs th w)).
Proof.
  unfold run, try_except, mbind, M_bind, engine_process_image, lift.
  destruct (outcome _); reflexivity.
Qed.

Lemma emit_progress_unconnected th (xs : list Z) (w : MainWindow) :
  progress_slot th = false ->
  foldl (fun w x => emit_progress th x w) w xs = w.
Proof.
  intros H. induction xs as [|x xs IH]; [reflexivity|].
  simpl. unfold emit_progress at 2. rewrite H. exact IH.
Qed.

(** A thread built by the batch loop has no slot connected: running it
    only calls the engine and, when the engine raises, logs. *)
Lemma run_batch_thread (cur e out : string) (w : MainWindow) :
  snd (run engine fs (mkThread cur e out false None) w)
  = match outcome (engine (length (engine_calls w)) cur e out) with
    | Returned _ => record (EngineCall cur e out) w
    | Raised err => logging (ErrorProcessing err) (record (EngineCall cur e out) w)
    end.
Proof.
  unfold run, try_except, mbind, M_bind, engine_process_image, lift.
  cbn [input_path thread_effect output_path].
  rewrite emit_progress_unconnected by reflexivity.
  destruct (outcome _); reflexivity.
Qed.

Lemma effects_loop_cons file total e rest cur c (w : MainWindow) :
  effects_loop engine fs file total (e :: rest) cur c w
  = let out := get_temp_path (batch_processor w) file in
    effects_loop engine fs file total rest out (c + 1)
      (record ProcessEvents
         (setValue (batch_progress (c + 1) total)
            (snd (run engine fs (mkThread cur e out false None) w)))).
Proof.
  cbn [effects_loop]. unfold mbind at 1, M_bind at 1, gets.
  unfold mbind at 1, M_bind at 1. rewrite run_ok.
  reflexivity.
Qed.

Lemma engine_calls_frame w m v evs :
  engine_calls (batch_frame w m v evs) = engine_calls w ++ calls_of evs.
Proof. unfold engine_calls. apply calls_of_app. Qed.

(** One step of the inner loop, on a framed state. *)
Lemma batch_step w0 m v evs cur e out c total :
  record ProcessEvents
    (setValue (batch_progress (c + 1) total)
       (snd (run engine fs (mkThread cur e out false None) (batch_frame w0 m v evs))))
  = batch_frame w0 m (batch_progress (c + 1) total)
      (evs ++ step_events engine total
                (length (engine_calls w0 ++ calls_of evs)) cur e out c).
Proof.
  rewrite run_batch_thread, engine_calls_frame. unfold step_events.
  destruct (outcome _); unfold batch_frame, record, logging, setValue,
    set_progress_bar_value, record; cbn; f_equal;
    rewrite <- ?app_assoc; reflexivity.
Qed.

Lemma calls_of_step_events total n cur e out c :
  calls_of (step_events engine total n cur e out c) = [(cur, e, out)].
Proof. unfold step_events. destruct (outcome _); reflexivity. Qed.

Lemma effects_loop_frame file total effects :
  forall cur c w0 m v evs,
    effects_loop engine fs file total effects cur c (batch_frame w0 m v evs)
    = (Ok (match effects with [] => cur | _ => get_temp_path (batch_processor w0) file end,
           c + Z.of_nat (length effects)),
       batch_frame w0 m
         (match effects with
          | [] => v
          | _ => batch_progress (c + Z.of_nat (length effects)) total
          end)
         (evs ++ file_events engine (batch_processor w0) total
                   (length (engine_calls w0 ++ calls_of evs)) file cur effects c)).
Proof.
  induction effects as [|e rest IH]; intros cur c w0 m v evs.
  - cbn. rewrite Z.add_0_r, app_nil_r. reflexivity.
  - rewrite effects_loop_cons. cbv zeta.
    change (get_temp_path (batch_processor (batch_frame w0 m v evs)) file)
      with (get_temp_path (batch_processor w0) file).
    rewrite batch_step, IH. cbn [file_events].
    rewrite <- app_assoc.
    replace (length (engine_calls w0 ++
               calls_of (evs ++ step_events engine total
                 (length (engine_calls w0 ++ calls_of evs)) cur e
                 (get_temp_path (batch_processor w0) file) c)))
      with (S (length (engine_calls w0 ++ calls_of evs))).
    2:{ rewrite calls_of_app, calls_of_step_events, !length_app.
        cbn [length]. lia. }
    replace (c + 1 + Z.of_nat (length rest)) with (c + Z.of_nat (length (e :: rest)))
      by (cbn [length]; lia).
    destruct rest; reflexivity.
Qed.

Lemma calls_of_file_events bp total effects :
  forall n file cur c,
    calls_of (file_events engine bp total n file cur effects c)
    = file_calls bp file cur effects.
Proof.
  induction effects as [|e rest IH]; intros n file cur c; [reflexivity|].
  cbn [file_events file_calls].
  rewrite calls_of_app, calls_of_step_events, IH. reflexivity.
Qed.

Lemma length_file_calls bp file effects :
  forall cur, length (file_calls bp file cur effects) = length effects.
Proof.
  induction effects as [|e rest IH]; intros cur; [reflexivity|].
  cbn [file_calls length]. rewrite IH. reflexivity.
Qed.

Lemma files_loop_frame total files :
  forall c w0 m v evs,
    effects_queue (batch_processor w0) <> [] ->
    files_loop engine fs total files c (batch_frame w0 m v evs)
    = (Ok (c + Z.of_nat (length files * length (effects_queue (batch_processor w0)))),
       batch_frame w0 (batch_processed (batch_processor w0) files m)
         (match files with
          | [] => v
          | _ => batch_progress
                   (c + Z.of_nat (length files
                                  * length (effects_queue (batch_processor w0)))) total
          end)
         (evs ++ batch_events engine (batch_processor w0) total
                   (length (engine_calls w0 ++ calls_of evs)) files
                   (effects_queue (batch_processor w0)) c)).
Proof.
  induction files as [|f rest IH]; intros c w0 m v evs HE.
  - cbn. rewrite Z.add_0_r, app_nil_r. reflexivity.
  - cbn [files_loop]. unfold mbind at 1, M_bind at 1, gets.
    change (effects_queue (batch_processor (batch_frame w0 m v evs)))
      with (effects_queue (batch_processor w0)).
    unfold mbind at 1, M_bind at 1. rewrite effects_loop_frame.
    unfold mbind at 1, M_bind at 1, lift. cbn [fst snd].
    set (E := effects_queue (batch_processor w0)) in *.
    set (n := length (engine_calls w0 ++ calls_of evs)).
    match goal with
    | |- files_loop _ _ _ _ _ ?st = _ =>
        replace st with
          (batch_frame w0 (<[f := get_temp_path (batch_processor w0) f]> m)
             (batch_progress (c + Z.of_nat (length E)) total)
             (evs ++ file_events engine (batch_processor w0) total n f f E c))
    end.
    2:{ subst E. destruct (effects_queue (batch_processor w0)); [contradiction|reflexivity]. }
    rewrite IH by exact HE. fold E.
    cbn [batch_events batch_processed foldl]. rewrite <- app_assoc.
    replace (length (engine_calls w0 ++
               calls_of (evs ++ file_events engine (batch_processor w0) total n f f E c)))
      with (n + length E)%nat.
    2:{ subst n. rewrite calls_of_app, calls_of_file_events, !length_app, length_file_calls.
        lia. }
    replace (c + Z.of_nat (length E) + Z.of_nat (length rest * length E))
      with (c + Z.of_nat (length (f :: rest) * length E)) by (cbn [length]; lia).
    destruct rest; [|reflexivity].
    cbn [length Nat.mul]. rewrite Nat.add_0_r. reflexivity.
Qed.

(** The whole of [process_batch] when there is something to do: the
    loop runs to its end whatever the engine answers. *)
Lemma process_batch_nonempty (w : MainWindow) :
  batch_files w <> [] ->
  effects_queue (batch_processor w) <> [] ->
  let bp := batch_processor w in
  let total := Z.of_nat (length (batch_files w)) * Z.of_nat (length (effects_queue bp)) in
  process_batch engine fs w
  = mkWindow (current_image w) (current_processed_image w) (batch_files w)
      (undo_stack w)
      (mkBatchProcessor (effects_queue bp) (temp_dir bp)
         (batch_processed bp (batch_files w) (processed_images bp)))
      (image_label w) false (batch_progress total total)
      (effect_buttons_enabled w) true (process_batch_button_enabled w)
      (processing_thread w) (commands w)
      (trace w ++ ProgressValue 0
         :: batch_events engine bp total (length (engine_calls w))
              (batch_files w) (effects_queue bp) 0
         ++ [Logged InfoBatchComplete]).
Proof.
  intros HF HE bp total.
  unfold process_batch, process_batch_body.
  destruct (batch_files w) as [|f files] eqn:EF; [contradiction|].
  destruct (effects_queue (batch_processor w)) as [|e effects] eqn:EE; [contradiction|].
  set (w1 := set_progress_bar_visible true w).
  assert (Hw1 : setValue 0 w1 = batch_frame w1 (processed_images bp) 0 [ProgressValue 0]).
  { subst w1 bp. destruct w as [? ? ? ? [? ? ?] ? ? ? ? ? ? ? ? ?]. reflexivity. }
  rewrite Hw1.
  change (batch_files (batch_frame w1 (processed_images bp) 0 [ProgressValue 0]))
    with (batch_files w).
  change (effects_queue (batch_processor
            (batch_frame w1 (processed_images bp) 0 [ProgressValue 0])))
    with (effects_queue (batch_processor w)).
  rewrite EF, EE.
  unfold try_finally, try_except, mbind at 1, M_bind at 1.
  rewrite files_loop_frame
    by (change (effects_queue (batch_processor w1)) with (effects_queue (batch_processor w));
        rewrite EE; discriminate).
  change (effects_queue (batch_processor w1)) with (effects_queue (batch_processor w)).
  change (batch_processor w1) with bp.
  change (engine_calls w1) with (engine_calls w).
  rewrite EE.
  unfold mbind, M_bind, lift. cbn [snd].
  unfold batch_frame, set_progress_bar_visible, logging, record, set_save_button_enabled.
  cbn -[batch_events batch_processed batch_progress Z.mul Z.of_nat Nat.mul length].
  subst total bp. rewrite EE, EF.
  rewrite Z.add_0_l, Nat2Z.inj_mul, app_nil_r, <- app_assoc.
  reflexivity.
Qed.

End BatchFacts.

(** ** Projections of a batch run *)

Lemma map_seq_shift {A} (f : nat -> A) (a n : nat) :
  forall b, map f (seq (a + b) n) = map (fun k => f (a + k)%nat) (seq b n).
Proof.
  induction n as [|n IH]; intros b; [reflexivity|].
  cbn [seq map]. f_equal. rewrite <- IH. f_equal. f_equal. lia.
Qed.

Section BatchProjections.

Variable engine : Engine.
Variable bp : BatchProcessor.
Variable total : Z.

Lemma calls_of_batch_events files effects :
  forall n c,
    calls_of (batch_events engine bp total n files effects c)
    = batch_calls bp files effects.
Proof.
  induction files as [|f rest IH]; intros n c; [reflexivity|].
  cbn [batch_events]. unfold batch_calls. cbn [flat_map].
  rewrite calls_of_app, calls_of_file_events, IH. reflexivity.
Qed.

Lemma length_batch_calls files effects :
  length (batch_calls bp files effects) = (length files * length effects)%nat.
Proof.
  induction files as [|f rest IH]; [reflexivity|].
  unfold batch_calls in *. cbn [flat_map length Nat.mul].
  rewrite length_app, length_file_calls, IH. reflexivity.
Qed.

Lemma values_of_step_events n cur e out c :
  values_of (step_events engine total n cur e out c) = [batch_progress (c + 1) total].
Proof. unfold step_events. destruct (outcome _); reflexivity. Qed.

Lemma values_of_file_events effects :
  forall n file cur c,
    values_of (file_events engine bp total n file cur effects c)
    = map (fun k => batch_progress (c + Z.of_nat k) total) (seq 1 (length effects)).
Proof.
  induction effects as [|e rest IH]; intros n file cur c; [reflexivity|].
  cbn [file_events length seq map].
  rewrite values_of_app, values_of_step_events, IH.
  cbn [app]. f_equal. rewrite <- (seq_shift (length rest) 1), map_map.
  apply map_ext. intros k. f_equal. lia.
Qed.

Lemma values_of_batch_events files effects :
  forall n c,
    values_of (batch_events engine bp total n files effects c)
    = map (fun k => batch_progress (c + Z.of_nat k) total)
          (seq 1 (length files * length effects)).
Proof.
  induction files as [|f rest IH]; intros n c; [reflexivity|].
  cbn [batch_events length Nat.mul].
  rewrite values_of_app, values_of_file_events, IH, seq_app, map_app.
  f_equal.
  rewrite (Nat.add_comm 1 (length effects)), (map_seq_shift _ (length effects)).
  apply map_ext. intros k. f_equal. lia.
Qed.

(** The log of a batch run never holds a batch error: only the
    engine errors that [run] caught. *)
Lemma log_of_batch_events files effects :
  forall n c,
    Forall (fun l => exists e, l = ErrorProcessing e)
           (log_of (batch_events engine bp total n files effects c)).
Proof.
  assert (Hfile : forall effs n file cur c,
             Forall (fun l => exists e, l = ErrorProcessing e)
                    (log_of (file_events engine bp total n file cur effs c))).
  { induction effs as [|e rest IH]; intros n file cur c; [constructor|].
    cbn [file_events]. rewrite log_of_app. apply Forall_app. split; [|apply IH].
    unfold step_events. destruct (outcome _); cbn; repeat constructor. eauto. }
  induction files as [|f rest IH]; intros n c; [constructor|].
  cbn [batch_events]. rewrite log_of_app. apply Forall_app. split; [apply Hfile|apply IH].
Qed.

Lemma batch_processed_lookup files :
  forall (m : gmap string string) (f : string),
    batch_processed bp files m !! f
    = if bool_decide (f ∈ files) then Some (get_temp_path bp f) else m !! f.
Proof.
  unfold batch_processed.
  induction files as [|g rest IH]; intros m f; [reflexivity|].
  cbn [foldl]. rewrite IH.
  destruct (decide (f ∈ rest)) as [Hin|Hnin].
  - rewrite !bool_decide_eq_true_2; [reflexivity| |assumption].
    apply elem_of_cons. right. assumption.
  - rewrite (bool_decide_eq_false_2 _ Hnin).
    destruct (decide (f = g)) as [->|Hne].
    + rewrite lookup_insert_eq, bool_decide_eq_true_2; [reflexivity|].
      apply elem_of_cons. left. reflexivity.
    + rewrite lookup_insert_ne by congruence.
      rewrite bool_decide_eq_false_2; [reflexivity|].
      rewrite elem_of_cons. intros [?|?]; contradiction.
Qed.

End BatchProjections.

(** ** Batch processing: the claims *)

Lemma file_calls_output bp file effects :
  forall cur c, c ∈ file_calls bp file cur effects -> c.2 = get_temp_path bp file.
Proof.
  induction effects as [|e rest IH]; intros cur c Hc; cbn [file_calls] in Hc.
  - apply elem_of_nil in Hc. contradiction.
  - apply elem_of_cons in Hc as [->|Hc]; [reflexivity|]. eapply IH. exact Hc.
Qed.

Lemma file_calls_in_batch_calls bp files effects f c :
  f ∈ files -> c ∈ file_calls bp f f effects -> c ∈ batch_calls bp files effects.
Proof.
  intros Hf Hc. unfold batch_calls. apply list_elem_of_In, in_flat_map.
  exists f. split; apply list_elem_of_In; assumption.
Qed.

(** The [j]-th call of a file: only the first reads the file itself. *)
Lemma file_calls_lookup bp file effects :
  forall cur (j : nat) e,
    effects !! j = Some e ->
    file_calls bp file cur effects !! j
    = Some (if (j =? 0)%nat then cur else get_temp_path bp file, e,
            get_temp_path bp file).
Proof.
  induction effects as [|e0 rest IH]; intros cur j e Hj; [discriminate|].
  destruct j as [|j]; cbn [file_calls].
  - cbn in Hj. injection Hj as ->. reflexivity.
  - cbn in Hj. cbn [lookup list_lookup Nat.eqb].
    change ((file_calls bp file (get_temp_path bp file) rest) !! j
            = Some (get_temp_path bp file, e, get_temp_path bp file)).
    rewrite (IH _ j e Hj). destruct (j =? 0)%nat; reflexivity.
Qed.

(** File-major, effect-minor: call number [i * E + j] (from 0) is step
    [j] of file [i]. *)
Lemma batch_calls_lookup bp files effects :
  forall (i j : nat) f e,
    files !! i = Some f ->
    effects !! j = Some e ->
    batch_calls bp files effects !! (i * length effects + j)%nat
    = Some (if (j =? 0)%nat then f else get_temp_path bp f, e, get_temp_path bp f).
Proof.
  induction files as [|f0 rest IH]; intros i j f e Hi Hj; [discriminate|].
  unfold batch_calls. cbn [flat_map]. fold (batch_calls bp rest effects).
  pose proof (lookup_lt_Some _ _ _ Hj) as Hlt.
  destruct i as [|i].
  - cbn in Hi. injection Hi as ->. cbn [Nat.mul Nat.add].
    rewrite lookup_app_l by (rewrite length_file_calls; exact Hlt).
    apply file_calls_lookup. exact Hj.
  - cbn in Hi. rewrite lookup_app_r by (rewrite length_file_calls; cbn; lia).
    rewrite length_file_calls.
    replace (S i * length effects + j - length effects)%nat
      with (i * length effects + j)%nat by (cbn; lia).
    apply IH; assumption.
Qed.

(** What a batch run does, whatever the engine answers: the engine
    calls, in order, and the processed images. *)
Lemma process_batch_effects (engine : Engine) (fs : FileSystem) (w : MainWindow) :
  batch_files w <> [] ->
  effects_queue (batch_processor w) <> [] ->
  let bp := batch_processor w in
  let w' := process_batch engine fs w in
  engine_calls w' = engine_calls w ++ batch_calls bp (batch_files w) (effects_queue bp)
  /\ length (batch_calls bp (batch_files w) (effects_queue bp))
     = (length (batch_files w) * length (effects_queue bp))%nat
  /\ processed_images (batch_processor w')
     = batch_processed bp (batch_files w) (processed_images bp)
  /\ (forall f, f ∈ batch_files w ->
        processed_images (batch_processor w') !! f = Some (get_temp_path bp f))
  /\ (forall f, f ∉ batch_files w ->
        processed_images (batch_processor w') !! f = processed_images bp !! f).
Proof.
  intros HF HE bp w'. subst w'.
  rewrite (process_batch_nonempty engine fs w HF HE). fold bp.
  unfold engine_calls. cbn [trace batch_processor processed_images].
  split; [|split; [|split; [|split]]].
  - rewrite calls_of_app. f_equal.
    change (calls_of (ProgressValue 0 :: ?l)) with (calls_of l).
    rewrite calls_of_app, calls_of_batch_events. apply app_nil_r.
  - apply length_batch_calls.
  - reflexivity.
  - intros f Hf. rewrite batch_processed_lookup, bool_decide_eq_true_2; auto.
  - intros f Hf. rewrite batch_processed_lookup, bool_decide_eq_false_2; auto.
Qed.

(** C3. For non-empty batch files (F of them) and queued effects (E of
    them), [process_batch] performs exactly F*E engine calls, file-major and
    effect-minor: call number [i * E + j] (counting from 0) is effect [j] on
    file [i]; its input is the file for the first effect and the temp path
    written by the previous step for every later one, and its output is
    [get_temp_path file]. After the last effect of a file
    [processed_images[file]] is that temp path. This holds whatever the
    engine answers. *)
Theorem process_batch_spec (engine : Engine) (fs : FileSystem) (w : MainWindow) :
  batch_files w <> [] ->
  effects_queue (batch_processor w) <> [] ->
  let bp := batch_processor w in
  let w' := process_batch engine fs w in
  engine_calls w' = engine_calls w ++ batch_calls bp (batch_files w) (effects_queue bp)
  /\ length (engine_calls w')
     = (length (engine_calls w)
        + length (batch_files w) * length (effects_queue bp))%nat
  /\ (forall (i j : nat) f e,
        batch_files w !! i = Some f ->
        effects_queue bp !! j = Some e ->
        engine_calls w' !! (length (engine_calls w)
                            + (i * length (effects_queue bp) + j))%nat
        = Some (if (j =? 0)%nat then f else get_temp_path bp f, e,
                get_temp_path bp f))
  /\ processed_images (batch_processor w')
     = batch_processed bp (batch_files w) (processed_images bp)
  /\ (forall f, f ∈ batch_files w ->
        processed_images (batch_processor w') !! f = Some (get_temp_path bp f))
  /\ (forall f, f ∉ batch_files w ->
        processed_images (batch_processor w') !! f = processed_images bp !! f).
Proof.
  intros HF HE bp w'.
  destruct (process_batch_effects engine fs w HF HE) as (Hc & Hlen & Hp & Hin & Hout).
  fold bp w' in Hc, Hlen, Hp, Hin, Hout.
  split; [exact Hc|]. split; [|split].
  - rewrite Hc, length_app, Hlen. reflexivity.
  - intros i j f e Hi Hj. rewrite Hc, lookup_app_r by lia.
    replace (length (engine_calls w) + (i * length (effects_queue bp) + j)
             - length (engine_calls w))%nat
      with (i * length (effects_queue bp) + j)%nat by lia.
    apply batch_calls_lookup; assumption.
  - split; [exact Hp|]. split; [exact Hin|exact Hout].
Qed.

(** The scenario of the specification: [a.png] and [b.png] through
    [blur] then [sepia]. *)
Lemma process_batch_spec_witness :
  let w := batch_window "/tmp/tmpab12" ["a.png"; "b.png"] ["blur"; "sepia"] in
  let w' := process_batch engine_ok fs_ok w in
  engine_calls w'
  = [("a.png", "blur", "/tmp/tmpab12/temp_a.png");
     ("/tmp/tmpab12/temp_a.png", "sepia", "/tmp/tmpab12/temp_a.png");
     ("b.png", "blur", "/tmp/tmpab12/temp_b.png");
     ("/tmp/tmpab12/temp_b.png", "sepia", "/tmp/tmpab12/temp_b.png")]
  /\ processed_images (batch_processor w')
     = {[ "a.png" := "/tmp/tmpab12/temp_a.png"; "b.png" := "/tmp/tmpab12/temp_b.png" ]}.
Proof.
  intros w w'.
  assert (HF : batch_files w <> []) by (vm_compute; discriminate).
  assert (HE : effects_queue (batch_processor w) <> []) by (vm_compute; discriminate).
  destruct (process_batch_spec engine_ok fs_ok w HF HE) as (H1 & _ & _ & H3 & _).
  split.
  - subst w'. rewrite H1. reflexivity.
  - subst w'. rewrite H3. vm_compute. reflexivity.
Defined.

(** C1 (not met by the code). When the engine call of a step raises,
    [ProcessingThread.run] catches the exception itself, so the handler of
    [process_batch] never sees it: here the first of two calls fails, yet
    the second call is made, both files get a [processed_images] entry and
    the run is logged as complete. *)
Theorem process_batch_runs_past_failure :
  let w := batch_window "/tmp/tmpab12" ["a.png"; "b.png"] ["blur"] in
  let w' := process_batch (engine_failing_at 1) fs_ok w in
  outcome (engine_failing_at 1 0%nat "a.png" "blur" "/tmp/tmpab12/temp_a.png")
  = Raised "engine failure"
  /\ engine_calls w'
     = [("a.png", "blur", "/tmp/tmpab12/temp_a.png");
        ("b.png", "blur", "/tmp/tmpab12/temp_b.png")]
  /\ processed_images (batch_processor w')
     = {[ "a.png" := "/tmp/tmpab12/temp_a.png"; "b.png" := "/tmp/tmpab12/temp_b.png" ]}
  /\ log w' = [ErrorProcessing "engine failure"; InfoBatchComplete].
Proof. vm_compute. repeat split; reflexivity. Qed.

(** C4 as stated fails: with 2 files and 3 effects the first value is 16,
    not 17. *)
Lemma step_progress_2x3_counterexample :
  step_progress engine_ok fs_ok
    (batch_window "/tmp/tmpab12" ["a.png"; "b.png"] ["blur"; "sepia"; "invert"])
  <> [17; 33; 50; 67; 83; 100].
Proof. vm_compute. discriminate. Qed.

(** C4, amended. With 2 files and 3 effects the progress bar is set to 0
    and then, after each of the 6 steps, to [int(k / 6 * 100)]: the
    truncated percentages 16, 33, 50, 66, 83, 100, in that order, which
    are non-decreasing. *)
Theorem step_progress_2x3 (engine : Engine) (fs : FileSystem) (w : MainWindow) :
  length (batch_files w) = 2%nat ->
  length (effects_queue (batch_processor w)) = 3%nat ->
  step_progress engine fs w = [16; 33; 50; 66; 83; 100]
  /\ progress_values (process_batch engine fs w)
     = progress_values w ++ [0; 16; 33; 50; 66; 83; 100]
  /\ Sorted Z.le (step_progress engine fs w).
Proof.
  intros HF HE.
  assert (HV : progress_values (process_batch engine fs w)
               = progress_values w ++ [0; 16; 33; 50; 66; 83; 100]).
  { rewrite process_batch_nonempty
      by (intros E; rewrite E in *; discriminate).
    unfold progress_values. cbn [trace].
    rewrite values_of_app. f_equal.
    change (values_of (ProgressValue 0 :: ?l)) with (0 :: values_of l).
    rewrite values_of_app, values_of_batch_events, HF, HE.
    vm_compute. reflexivity. }
  assert (HS : step_progress engine fs w = [16; 33; 50; 66; 83; 100]).
  { unfold step_progress. rewrite HV.
    change (progress_values w ++ [0; 16; 33; 50; 66; 83; 100])
      with (progress_values w ++ [0] ++ [16; 33; 50; 66; 83; 100]).
    rewrite app_assoc, drop_app_length'; [reflexivity|].
    rewrite length_app. cbn. lia. }
  split; [exact HS|]. split; [exact HV|].
  rewrite HS. repeat constructor; lia.
Qed.

Lemma step_progress_2x3_witness :
  step_progress engine_ok fs_ok
    (batch_window "/tmp/tmpab12" ["a.png"; "b.png"] ["blur"; "sepia"; "invert"])
  = [16; 33; 50; 66; 83; 100].
Proof.
  apply (step_progress_2x3 engine_ok fs_ok
           (batch_window "/tmp/tmpab12" ["a.png"; "b.png"] ["blur"; "sepia"; "invert"]));
    reflexivity.
Defined.

(** C10. Two distinct original paths with the same file name get the
    same temp path from any batch processor; so in a batch holding both,
    every engine call made for either file writes that one path, and both
    [processed_images] entries hold it. *)
Theorem same_name_same_temp_path (engine : Engine) (fs : FileSystem) (w : MainWindow)
        (f1 f2 : string) :
  f1 <> f2 ->
  basename f1 = basename f2 ->
  f1 ∈ batch_files w ->
  f2 ∈ batch_files w ->
  effects_queue (batch_processor w) <> [] ->
  let bp := batch_processor w in
  let w' := process_batch engine fs w in
  (forall bp0, get_temp_path bp0 f1 = get_temp_path bp0 f2)
  /\ (forall c, c ∈ file_calls bp f1 f1 (effects_queue bp)
                ∨ c ∈ file_calls bp f2 f2 (effects_queue bp) ->
                c ∈ engine_calls w' /\ c.2 = get_temp_path bp f1)
  /\ processed_images (batch_processor w') !! f1 = Some (get_temp_path bp f1)
  /\ processed_images (batch_processor w') !! f2 = Some (get_temp_path bp f1).
Proof.
  intros _ Hname H1 H2 HE bp w'.
  assert (HT : forall bp0, get_temp_path bp0 f1 = get_temp_path bp0 f2).
  { intros bp0. unfold get_temp_path. fold (basename f1) (basename f2).
    rewrite Hname. reflexivity. }
  assert (HF : batch_files w <> []).
  { intros E. rewrite E in H1. apply elem_of_nil in H1. contradiction. }
  destruct (process_batch_effects engine fs w HF HE) as (Hc & _ & _ & Hin & _).
  fold bp w' in Hc, Hin.
  split; [exact HT|]. split; [|split].
  - intros c Hcall. split.
    + rewrite Hc. apply elem_of_app. right.
      destruct Hcall as [Hcall|Hcall].
      * apply (file_calls_in_batch_calls bp _ _ f1); assumption.
      * apply (file_calls_in_batch_calls bp _ _ f2); assumption.
    + destruct Hcall as [Hcall|Hcall].
      * eapply file_calls_output. exact Hcall.
      * rewrite (HT bp). eapply file_calls_output. exact Hcall.
  - apply Hin. exact H1.
  - rewrite (HT bp). apply Hin. exact H2.
Qed.

(** [x/a.png] and [y/a.png] in one batch. *)
Lemma same_name_same_temp_path_witness :
  let w := batch_window "/tmp/tmpab12" ["x/a.png"; "y/a.png"] ["blur"] in
  let w' := process_batch engine_ok fs_ok w in
  processed_images (batch_processor w') !! "x/a.png" = Some "/tmp/tmpab12/temp_a.png"
  /\ processed_images (batch_processor w') !! "y/a.png" = Some "/tmp/tmpab12/temp_a.png".
Proof.
  intros w w'.
  assert (Hne : "x/a.png" <> "y/a.png") by discriminate.
  assert (Hb : basename "x/a.png" = basename "y/a.png") by (vm_compute; reflexivity).
  assert (H1 : "x/a.png" ∈ batch_files w) by (apply elem_of_cons; left; reflexivity).
  assert (H2 : "y/a.png" ∈ batch_files w)
    by (apply elem_of_cons; right; apply elem_of_cons; left; reflexivity).
  assert (HE : effects_queue (batch_processor w) <> []) by (vm_compute; discriminate).
  destruct (same_name_same_temp_path engine_ok fs_ok w _ _ Hne Hb H1 H2 HE)
    as (_ & _ & Ha & Hb').
  split; [exact Ha|exact Hb'].
Defined.

(** ** Completion handling *)

Lemma log_record_other (ev : Event) (w : MainWindow) :
  (forall l, ev <> Logged l) -> log (record ev w) = log w.
Proof.
  intros H. unfold log, record. cbn [trace]. rewrite log_of_app.
  destruct ev; try (cbn; apply app_nil_r). exfalso. eapply H. reflexivity.
Qed.

Lemma log_emit_progress th (xs : list Z) :
  forall w, log (foldl (fun w x => emit_progress th x w) w xs) = log w.
Proof.
  induction xs as [|x xs IH]; intros w; [reflexivity|].
  cbn [foldl]. rewrite IH. unfold emit_progress.
  destruct (progress_slot th); [|reflexivity].
  unfold update_progress, setValue. rewrite log_record_other by discriminate.
  reflexivity.
Qed.

(** What an engine failure leaves in the log. *)
Lemma run_engine_failure_log (engine : Engine) (fs : FileSystem)
      (th : ProcessingThread) (w : MainWindow) (e : string) :
  outcome (engine (length (engine_calls w)) (input_path th) (thread_effect th)
                  (output_path th)) = Raised e ->
  log (snd (run engine fs th w)) = log w ++ [ErrorProcessing e].
Proof.
  intros H. unfold run, try_except, mbind, M_bind, engine_process_image, lift.
  rewrite H. cbn [snd]. unfold logging at 1, log at 1, record at 1. cbn [trace].
  rewrite log_of_app. f_equal.
  change (log_of (trace ?x)) with (log x).
  rewrite log_emit_progress, log_record_other by discriminate.
  reflexivity.
Qed.

(** C7. When the result path of a completion event does not exist, or
    is not a decodable image, [processing_complete] leaves the image state
    as it was: [current_processed_image], the label's pixmap, the current
    image and every command (so the associated command's [new_state]) are
    unchanged. It logs an error of its own, [ErrorResultMissing] or
    [ErrorResultLoadFailed], which is not the [ErrorProcessing] entry that
    an engine failure leaves. *)
Theorem processing_complete_invalid (fs : FileSystem) (result_path : string)
        (command : option nat) (w : MainWindow) :
  file_exists fs result_path = false \/ decodable fs result_path = false ->
  let w' := processing_complete fs result_path command w in
  current_processed_image w' = current_processed_image w
  /\ image_label w' = image_label w
  /\ current_image w' = current_image w
  /\ commands w' = commands w
  /\ undo_stack w' = undo_stack w
  /\ (exists l, log w' = log w ++ [InfoProcessingComplete result_path; l]
                /\ (l = ErrorResultMissing result_path
                    \/ l = ErrorResultLoadFailed result_path)
                /\ forall e, l <> ErrorProcessing e)
  /\ (forall engine th w0 e,
         outcome (engine (length (engine_calls w0)) (input_path th) (thread_effect th)
                         (output_path th)) = Raised e ->
         log (snd (run engine fs th w0)) = log w0 ++ [ErrorProcessing e]).
Proof.
  intros H w'. subst w'. unfold processing_complete.
  assert (Hlog : forall l,
    log (logging l (set_progress_bar_visible false
           (logging (InfoProcessingComplete result_path) w)))
    = log w ++ [InfoProcessingComplete result_path; l]).
  { intros l. unfold log, logging, record, set_progress_bar_visible. cbn [trace].
    rewrite !log_of_app, <- app_assoc. reflexivity. }
  destruct (file_exists fs result_path) eqn:Ex; cbn [negb].
  - destruct H as [H|H]; [discriminate|]. rewrite H. cbn [negb].
    repeat split; try reflexivity.
    + exists (ErrorResultLoadFailed result_path).
      split; [apply Hlog|]. split; [right; reflexivity|discriminate].
    + intros. apply run_engine_failure_log. assumption.
  - repeat split; try reflexivity.
    + exists (ErrorResultMissing result_path).
      split; [apply Hlog|]. split; [left; reflexivity|discriminate].
    + intros. apply run_engine_failure_log. assumption.
Qed.

(** A completion event for a file that is not there. *)
Lemma processing_complete_invalid_witness :
  let w := process_image "grayscale"
             (load_specific_image (Some "a.png") (MainWindow_init "/tmp/tmpab12")) in
  let w' := processing_complete fs_missing "/tmp/tmpab12/temp_a.png" (Some 0%nat) w in
  image_label w' = QPixmap (Some "a.png")
  /\ current_processed_image w' = None
  /\ commands w' = commands w.
Proof.
  intros w w'.
  destruct (processing_complete_invalid fs_missing "/tmp/tmpab12/temp_a.png"
              (Some 0%nat) w (or_introl eq_refl)) as (H1 & H2 & _ & H4 & _).
  fold w' in H1, H2, H4.
  split; [rewrite H2; reflexivity|]. split; [rewrite H1; reflexivity|exact H4].
Defined.

(** ** Single-image edits *)

(** Reduces field reads over field updates. *)
Ltac window_simpl :=
  cbn [current_image current_processed_image batch_files undo_stack batch_processor
       image_label progress_bar_visible progress_bar_value effect_buttons_enabled
       save_button_enabled process_batch_button_enabled processing_thread commands
       trace set_current_image set_current_processed_image set_batch_files
       set_undo_stack set_batch_processor set_image_label set_progress_bar_visible
       set_progress_bar_value set_effect_buttons_enabled set_save_button_enabled
       set_process_batch_button_enabled set_processing_thread set_commands record
       logging setValue update_progress load_specific_image
       command_list index effects_queue temp_dir processed_images add_effect
       effect_type old_state new_state path effect].

Ltac window_simpl_all :=
  cbn [current_image current_processed_image batch_files undo_stack batch_processor
       image_label progress_bar_visible progress_bar_value effect_buttons_enabled
       save_button_enabled process_batch_button_enabled processing_thread commands
       trace set_current_image set_current_processed_image set_batch_files
       set_undo_stack set_batch_processor set_image_label set_progress_bar_visible
       set_progress_bar_value set_effect_buttons_enabled set_save_button_enabled
       set_process_batch_button_enabled set_processing_thread set_commands record
       logging setValue update_progress load_specific_image
       command_list index effects_queue temp_dir processed_images add_effect
       effect_type old_state new_state path effect] in *.

Lemma process_image_internal_frame (e : string) (c : option nat) (w : MainWindow) :
  let w' := process_image_internal e c w in
  current_image w' = current_image w
  /\ commands w' = commands w
  /\ undo_stack w' = undo_stack w
  /\ batch_processor w' = batch_processor w
  /\ batch_files w' = batch_files w
  /\ image_label w' = image_label w
  /\ engine_calls w' = engine_calls w.
Proof.
  unfold process_image_internal.
  destruct (py_bool (current_image w)); cbn [negb]; repeat split; try reflexivity.
  unfold engine_calls, record. cbn [trace]. rewrite calls_of_app. apply app_nil_r.
Qed.

Lemma process_image_internal_threads (e : string) (c : nat) (w : MainWindow) :
  started_threads (process_image_internal e (Some c) w)
  = started_threads w
      ++ (if py_bool (current_image w) then [interactive_thread w e c] else []).
Proof.
  unfold process_image_internal.
  destruct (py_bool (current_image w)); cbn [negb].
  - unfold started_threads, record. cbn [trace]. rewrite threads_of_app. reflexivity.
  - symmetry. apply app_nil_r.
Qed.

Lemma lookup_snoc {A} (l : list A) (x : A) : (l ++ [x]) !! length l = Some x.
Proof. rewrite lookup_app_r by lia. rewrite Nat.sub_diag. reflexivity. Qed.

(** What [process_image] does, field by field. *)
Lemma process_image_unfold (e : string) (w : MainWindow) :
  let id := length (commands w) in
  let cmd := mkCommand e (mkImageState (current_image w) None) None in
  let st := undo_stack w in
  process_image e w
  = set_process_batch_button_enabled true
      (set_save_button_enabled true
         (set_batch_processor (add_effect e (batch_processor w))
            (set_undo_stack (mkStack (take (index st) (command_list st) ++ [id])
                                     (S (index st)))
               (process_image_internal e (Some id)
                  (set_undo_stack (mkStack (take (index st) (command_list st) ++ [id])
                                           (index st))
                     (set_commands (commands w ++ [cmd]) w)))))).
Proof.
  intros id cmd st.
  unfold process_image, ImageProcessCommand_init, stack_push, redo.
  cbn [commands set_undo_stack set_commands undo_stack].
  rewrite lookup_snoc. cbn [new_state effect_type].
  fold id cmd st.
  destruct (process_image_internal_frame e (Some id)
              (set_undo_stack (mkStack (take (index st) (command_list st) ++ [id])
                                       (index st))
                 (set_commands (commands w ++ [cmd]) w)))
    as (_ & _ & Hst & Hbp & _).
  window_simpl_all. rewrite Hst, Hbp. reflexivity.
Qed.

(** C9. Every call [process_image(effect_type)] pushes a new undo command
    for the effect and also appends the effect to the batch processor's
    [effects_queue] (temp directory, processed images and batch files are
    untouched); a batch run after it therefore applies the grown queue,
    the new effect last, to every batch file. *)
Theorem process_image_queues_effect (engine : Engine) (fs : FileSystem)
        (effect_type : string) (w : MainWindow) :
  let w' := process_image effect_type w in
  let bp' := batch_processor w' in
  effects_queue bp' = effects_queue (batch_processor w) ++ [effect_type]
  /\ temp_dir bp' = temp_dir (batch_processor w)
  /\ processed_images bp' = processed_images (batch_processor w)
  /\ batch_files w' = batch_files w
  /\ commands w'
     = commands w ++ [mkCommand effect_type (mkImageState (current_image w) None) None]
  /\ command_list (undo_stack w')
     = take (index (undo_stack w)) (command_list (undo_stack w)) ++ [length (commands w)]
  /\ index (undo_stack w') = S (index (undo_stack w))
  /\ (batch_files w <> [] ->
      engine_calls (process_batch engine fs w')
      = engine_calls w
          ++ batch_calls bp' (batch_files w)
               (effects_queue (batch_processor w) ++ [effect_type])).
Proof.
  intros w' bp'. subst bp' w'. rewrite process_image_unfold.
  set (w1 := set_undo_stack _ (set_commands _ w)).
  destruct (process_image_internal_frame effect_type (Some (length (commands w))) w1)
    as (_ & Hc & _ & Hbp & Hf & _ & He).
  assert (Hw1 : batch_processor w1 = batch_processor w) by reflexivity.
  assert (Hf1 : batch_files w1 = batch_files w) by reflexivity.
  assert (Hc1 : commands w1 = commands w ++ [mkCommand effect_type
                  (mkImageState (current_image w) None) None]) by reflexivity.
  window_simpl. rewrite Hc, Hf, Hc1, Hf1.
  repeat split; try reflexivity.
  intros HF.
  match goal with |- engine_calls (process_batch _ _ ?x) = _ => set (w2 := x) end.
  assert (Hbp2 : batch_processor w2 = add_effect effect_type (batch_processor w))
    by reflexivity.
  assert (Hf2 : batch_files w2 = batch_files w).
  { subst w2. window_simpl. rewrite Hf. exact Hf1. }
  assert (He2 : engine_calls w2 = engine_calls w).
  { subst w2. unfold engine_calls in *. window_simpl. exact He. }
  assert (HF2 : batch_files w2 <> []) by (rewrite Hf2; exact HF).
  assert (HE2 : effects_queue (batch_processor w2) <> []).
  { rewrite Hbp2. window_simpl. destruct (effects_queue (batch_processor w)); discriminate. }
  destruct (process_batch_effects engine fs w2 HF2 HE2) as (H & _).
  rewrite H, He2, Hf2, Hbp2. reflexivity.
Qed.

(** ** Undo and redo of one command *)

Lemma load_specific_image_frame (f : option string) (w : MainWindow) :
  let w' := load_specific_image f w in
  current_image w' = f
  /\ displayed w' = f
  /\ commands w' = commands w
  /\ undo_stack w' = undo_stack w
  /\ trace w' = trace w
  /\ processing_thread w' = processing_thread w
  /\ batch_processor w' = batch_processor w.
Proof. repeat split. Qed.

Lemma stack_redo_at_end (w : MainWindow) :
  index (undo_stack w) = length (command_list (undo_stack w)) -> stack_redo w = w.
Proof.
  intros H. unfold stack_redo. rewrite H, lookup_ge_None_2 by lia. reflexivity.
Qed.

Lemma redo_cached_path (self : nat) (w : MainWindow) (p : option string) :
  cached w self = Some p -> redo self w = load_specific_image p w.
Proof.
  unfold cached, redo. destruct (commands w !! self) as [cmd|]; [|discriminate].
  destruct (new_state cmd); [|discriminate]. intros [= <-]. reflexivity.
Qed.

(** C5. For a command whose [new_state] is populated, [redo] only loads
    the cached [new_state.path]: that path becomes the displayed image, no
    engine call is made and no thread is started. With [new_state] empty,
    [redo] is the call [process_image_internal(effect_type, self)], the
    very call the first application makes through [push]: with an image
    loaded, both start one thread for the current image and the command.
    A redo with the cursor at the end of the history does nothing. In the
    single-image scenario ([a.png], [grayscale]): one command, with
    [old_state = (a.png, None)] and
    [new_state = (<temp>/temp_a.png, grayscale)]; undo displays [a.png],
    redo displays the temp path and the engine call count stays 1, and a
    second redo changes nothing. *)
Theorem redo_cached (self : nat) (cmd : ImageProcessCommand) (w : MainWindow) :
  commands w !! self = Some cmd ->
  (forall ns, new_state cmd = Some ns ->
     redo self w = load_specific_image (path ns) w
     /\ displayed (redo self w) = path ns
     /\ engine_calls (redo self w) = engine_calls w
     /\ started_threads (redo self w) = started_threads w
     /\ processing_thread (redo self w) = processing_thread w)
  /\ (new_state cmd = None ->
      redo self w = process_image_internal (effect_type cmd) (Some self) w
      /\ started_threads (redo self w)
         = started_threads w
             ++ (if py_bool (current_image w)
                 then [interactive_thread w (effect_type cmd) self] else []))
  /\ (forall e w0,
        started_threads (process_image e w0)
        = started_threads w0
            ++ (if py_bool (current_image w0)
                then [interactive_thread w0 e (length (commands w0))] else []))
  /\ (forall w0, index (undo_stack w0) = length (command_list (undo_stack w0)) ->
        stack_redo w0 = w0)
  /\ (let s := grayscale_scenario in
      command_list (undo_stack s) = [0%nat]
      /\ commands s
         = [mkCommand "grayscale" (mkImageState (Some "a.png") None)
              (Some (mkImageState (Some "/tmp/tmpab12/temp_a.png") (Some "grayscale")))]
      /\ displayed s = Some "/tmp/tmpab12/temp_a.png"
      /\ displayed (stack_undo s) = Some "a.png"
      /\ displayed (stack_redo (stack_undo s)) = Some "/tmp/tmpab12/temp_a.png"
      /\ engine_calls (stack_redo (stack_undo s))
         = [("a.png", "grayscale", "/tmp/tmpab12/temp_a.png")]
      /\ started_threads (stack_redo (stack_undo s)) = started_threads s
      /\ stack_redo (stack_redo (stack_undo s)) = stack_redo (stack_undo s)).
Proof.
  intros Hcmd. split; [|split; [|split; [|split]]].
  - intros ns Hns. unfold redo. rewrite Hcmd, Hns. repeat split.
  - intros Hns. unfold redo. rewrite Hcmd, Hns. split; [reflexivity|].
    apply process_image_internal_threads.
  - intros e w0. rewrite process_image_unfold.
    unfold started_threads. window_simpl.
    change (threads_of (trace ?x)) with (started_threads x).
    rewrite process_image_internal_threads. reflexivity.
  - apply stack_redo_at_end.
  - vm_compute. repeat split; reflexivity.
Qed.

(** The command of the grayscale scenario, redone. *)
Lemma redo_cached_witness :
  redo 0 grayscale_scenario
  = load_specific_image (Some "/tmp/tmpab12/temp_a.png") grayscale_scenario
  /\ engine_calls (redo 0 grayscale_scenario) = engine_calls grayscale_scenario.
Proof.
  destruct (redo_cached 0
              (mkCommand "grayscale" (mkImageState (Some "a.png") None)
                 (Some (mkImageState (Some "/tmp/tmpab12/temp_a.png") (Some "grayscale"))))
              grayscale_scenario eq_refl) as (H & _).
  destruct (H _ eq_refl) as (H1 & _ & H3 & _).
  split; [exact H1|exact H3].
Defined.

(** C2 as stated fails: the command below was created with no image
    loaded, so its [old_state.path] is empty; after an image is loaded,
    undoing it replaces the displayed image and empties the current
    image. *)
Lemma undo_empty_old_state_counterexample :
  let w := empty_old_state_scenario in
  (exists cmd, commands w !! 0%nat = Some cmd /\ py_bool (path (old_state cmd)) = false)
  /\ displayed w = Some "a.png"
  /\ displayed (undo 0 w) = None
  /\ current_image (undo 0 w) <> current_image w
  /\ stack_undo w <> w.
Proof.
  cbv zeta. split; [eexists; split; [reflexivity|reflexivity]|].
  split; [reflexivity|]. split; [reflexivity|].
  split; [vm_compute; discriminate|].
  intros H. apply (f_equal displayed) in H. vm_compute in H. discriminate.
Qed.

(** C2, amended. For a command whose [old_state.path] is empty: [redo]
    is a no-op (the window is unchanged, so nothing is displayed anew and
    no processing starts) when the command has no cached [new_state] and
    the window's current image is empty, as it is right after the command
    is created with no image loaded; [undo] never starts processing or
    calls the engine, but loads the empty path: the current image and the
    pixmap's source become [old_state.path], which is a no-op only for a
    window already in that state. *)
Theorem undo_redo_empty_old_state (self : nat) (cmd : ImageProcessCommand)
        (w : MainWindow) :
  commands w !! self = Some cmd ->
  py_bool (path (old_state cmd)) = false ->
  (new_state cmd = None -> py_bool (current_image w) = false -> redo self w = w)
  /\ (forall e w0, py_bool (current_image w0) = false ->
        let '(c, w1) := ImageProcessCommand_init e w0 in
        redo c w1 = w1
        /\ (exists cmd1, commands w1 !! c = Some cmd1
                         /\ py_bool (path (old_state cmd1)) = false))
  /\ started_threads (undo self w) = started_threads w
  /\ engine_calls (undo self w) = engine_calls w
  /\ processing_thread (undo self w) = processing_thread w
  /\ current_image (undo self w) = path (old_state cmd)
  /\ displayed (undo self w) = path (old_state cmd)
  /\ py_bool (current_image (undo self w)) = false
  /\ (current_image w = path (old_state cmd) ->
      image_label w = QPixmap (path (old_state cmd)) ->
      effect_buttons_enabled w = true ->
      undo self w = w).
Proof.
  intros Hcmd Hold.
  split; [|split].
  - intros Hns Hcur. unfold redo, process_image_internal. rewrite Hcmd, Hns, Hcur.
    reflexivity.
  - intros e w0 Hcur. unfold ImageProcessCommand_init, redo, process_image_internal.
    window_simpl. rewrite lookup_snoc. window_simpl. rewrite Hcur. cbn [negb].
    split; [reflexivity|]. eexists. split; [reflexivity|]. exact Hcur.
  - unfold undo. rewrite Hcmd. repeat split; try assumption.
    intros H1 H2 H3. destruct w. cbn in *. subst. reflexivity.
Qed.

(** A command created on a fresh window, redone there. *)
Lemma undo_redo_empty_old_state_witness :
  let w := process_image "blur" (MainWindow_init "/tmp/tmpab12") in
  redo 0 w = w /\ started_threads (undo 0 w) = [].
Proof.
  intros w.
  destruct (undo_redo_empty_old_state 0
              (mkCommand "blur" (mkImageState None None) None) w eq_refl eq_refl)
    as (H1 & _ & H3 & _).
  split; [apply H1; reflexivity|exact H3].
Defined.

(** ** Walking the history *)

Lemma cached_commands (w w' : MainWindow) (c : nat) :
  commands w' = commands w -> cached w' c = cached w c.
Proof. intros H. unfold cached. rewrite H. reflexivity. Qed.

Lemma stack_undo_step (w : MainWindow) (i c : nat) :
  index (undo_stack w) = S i ->
  command_list (undo_stack w) !! i = Some c ->
  let w' := stack_undo w in
  index (undo_stack w') = i
  /\ command_list (undo_stack w') = command_list (undo_stack w)
  /\ commands w' = commands w
  /\ trace w' = trace w.
Proof.
  intros Hi Hc. unfold stack_undo. rewrite Hi, Hc. unfold undo.
  destruct (commands w !! c); repeat split.
Qed.

Lemma stack_undo_iter (N : nat) (w : MainWindow) :
  (N <= index (undo_stack w))%nat ->
  (index (undo_stack w) <= length (command_list (undo_stack w)))%nat ->
  let w' := Nat.iter N stack_undo w in
  index (undo_stack w') = (index (undo_stack w) - N)%nat
  /\ command_list (undo_stack w') = command_list (undo_stack w)
  /\ commands w' = commands w
  /\ trace w' = trace w.
Proof.
  intros HN Hlen. cbv zeta. induction N as [|n IH].
  - cbn. repeat split. lia.
  - destruct IH as (Hi & Hcl & Hcmd & Htr); [lia|].
    change (Nat.iter (S n) stack_undo w) with (stack_undo (Nat.iter n stack_undo w)).
    set (wn := Nat.iter n stack_undo w) in *.
    assert (Hidx : index (undo_stack wn) = S (index (undo_stack w) - S n)) by lia.
    destruct (lookup_lt_is_Some_2 (command_list (undo_stack wn))
                (index (undo_stack w) - S n)) as [c Hc]; [rewrite Hcl; lia|].
    destruct (stack_undo_step wn _ c Hidx Hc) as (H1 & H2 & H3 & H4).
    rewrite H1, H2, H3, H4. repeat split; assumption.
Qed.

Lemma stack_redo_step (w : MainWindow) (c : nat) (p : option string) :
  command_list (undo_stack w) !! index (undo_stack w) = Some c ->
  cached w c = Some p ->
  let w' := stack_redo w in
  index (undo_stack w') = S (index (undo_stack w))
  /\ command_list (undo_stack w') = command_list (undo_stack w)
  /\ commands w' = commands w
  /\ trace w' = trace w
  /\ displayed w' = p.
Proof.
  intros Hc Hp. unfold stack_redo. rewrite Hc, (redo_cached_path _ _ _ Hp).
  repeat split.
Qed.

Lemma stack_redo_iter (N : nat) (w : MainWindow) :
  (forall i, (index (undo_stack w) <= i < index (undo_stack w) + N)%nat ->
             exists c p, command_list (undo_stack w) !! i = Some c
                         /\ cached w c = Some p) ->
  let w' := Nat.iter N stack_redo w in
  index (undo_stack w') = (index (undo_stack w) + N)%nat
  /\ command_list (undo_stack w') = command_list (undo_stack w)
  /\ commands w' = commands w
  /\ trace w' = trace w
  /\ ((0 < N)%nat ->
      exists c, command_list (undo_stack w) !! (index (undo_stack w) + N - 1)%nat = Some c
                /\ cached w c = Some (displayed w')).
Proof.
  intros H. cbv zeta. induction N as [|n IH].
  - cbn. repeat split; [lia|lia].
  - destruct IH as (Hi & Hcl & Hcmd & Htr & _); [intros i Hi; apply H; lia|].
    change (Nat.iter (S n) stack_redo w) with (stack_redo (Nat.iter n stack_redo w)).
    set (wn := Nat.iter n stack_redo w) in *.
    destruct (H (index (undo_stack w) + n)%nat) as (c & p & Hc & Hp); [lia|].
    destruct (stack_redo_step wn c p) as (H1 & H2 & H3 & H4 & H5).
    { rewrite Hcl, Hi. exact Hc. }
    { rewrite (cached_commands w wn c Hcmd). exact Hp. }
    rewrite H1, H2, H3, H4, Hi.
    split; [lia|]. split; [exact Hcl|]. split; [exact Hcmd|]. split; [exact Htr|].
    intros _. exists c. split.
    + replace (index (undo_stack w) + S n - 1)%nat
        with (index (undo_stack w) + n)%nat by lia. exact Hc.
    + rewrite H5. exact Hp.
Qed.

(** With the cursor at the end and the last [N] commands holding a
    cached result, the newest of which is displayed, [N] undos followed by
    [N] redos restore the display without touching the trace. *)
Lemma undo_redo_restores (N : nat) (w : MainWindow) :
  let cl := command_list (undo_stack w) in
  index (undo_stack w) = length cl ->
  (N <= length cl)%nat ->
  (forall i, (length cl - N <= i < length cl)%nat ->
             exists c p, cl !! i = Some c /\ cached w c = Some p) ->
  ((0 < N)%nat ->
   exists c, cl !! (length cl - 1)%nat = Some c /\ cached w c = Some (displayed w)) ->
  let w' := Nat.iter N stack_redo (Nat.iter N stack_undo w) in
  displayed w' = displayed w
  /\ trace w' = trace w
  /\ commands w' = commands w
  /\ undo_stack w' = undo_stack w.
Proof.
  intros cl Hidx HN Hpop Hlast. subst cl.
  destruct (stack_undo_iter N w) as (Ui & Ucl & Ucmd & Utr); [lia|lia|].
  set (wu := Nat.iter N stack_undo w) in *.
  destruct (stack_redo_iter N wu) as (Ri & Rcl & Rcmd & Rtr & Rlast).
  { intros i Hi. rewrite Ucl. destruct (Hpop i) as (c & p & Hc & Hp); [lia|].
    exists c, p. split; [exact Hc|]. rewrite (cached_commands w wu c Ucmd). exact Hp. }
  cbv zeta. set (wr := Nat.iter N stack_redo wu) in *.
  assert (Hst : undo_stack wr = undo_stack w).
  { destruct (undo_stack wr) as [a b], (undo_stack w) as [a0 b0]. cbn in *. f_equal; [congruence|lia]. }
  split; [|split; [congruence|split; [congruence|exact Hst]]].
  destruct N as [|n]; [reflexivity|].
  destruct Rlast as (c & Hc & Hp); [lia|].
  destruct Hlast as (c' & Hc' & Hp'); [lia|].
  rewrite Ucl, Ui, Hidx in Hc.
  replace (length (command_list (undo_stack w)) - S n + S n - 1)%nat
    with (length (command_list (undo_stack w)) - 1)%nat in Hc by lia.
  rewrite Hc' in Hc. injection Hc as <-.
  rewrite (cached_commands w wu c' Ucmd), Hp' in Hp. congruence.
Qed.

(** ** An edit carried to its end *)

Lemma emit_progress_fold_frame th (xs : list Z) :
  forall w,
    let w' := foldl (fun w x => emit_progress th x w) w xs in
    commands w' = commands w
    /\ undo_stack w' = undo_stack w
    /\ current_image w' = current_image w.
Proof.
  induction xs as [|x xs IH]; intros w; [repeat split|].
  cbn [foldl]. cbv zeta. destruct (IH (emit_progress th x w)) as (H1 & H2 & H3).
  rewrite H1, H2, H3. unfold emit_progress.
  destruct (progress_slot th); repeat split.
Qed.

Lemma run_returned (engine : Engine) (fs : FileSystem) (th : ProcessingThread)
      (w : MainWindow) (r : string) :
  outcome (engine (length (engine_calls w)) (input_path th) (thread_effect th)
                  (output_path th)) = Returned r ->
  snd (run engine fs th w)
  = emit_finished fs th r
      (foldl (fun w x => emit_progress th x w)
         (record (EngineCall (input_path th) (thread_effect th) (output_path th)) w)
         (reported (engine (length (engine_calls w)) (input_path th) (thread_effect th)
                           (output_path th)))).
Proof.
  intros H. unfold run, try_except, mbind, M_bind, engine_process_image, lift.
  rewrite H. reflexivity.
Qed.

Lemma alter_snoc {A} (f : A -> A) (l : list A) (x : A) :
  alter f (length l) (l ++ [x]) = l ++ [f x].
Proof.
  induction l as [|a l IH]; [reflexivity|].
  cbn [length app]. cbn. f_equal. exact IH.
Qed.

(** One completed edit on a window with an image loaded. *)
Lemma apply_effect_step (engine : Engine) (fs : FileSystem) (e : string)
      (w : MainWindow) :
  engine_succeeds engine fs ->
  py_bool (current_image w) = true ->
  exists r,
    let w' := apply_effect engine fs e w in
    commands w'
    = commands w ++ [mkCommand e (mkImageState (current_image w) None)
                       (Some (mkImageState (Some r) (Some e)))]
    /\ undo_stack w'
       = mkStack (take (index (undo_stack w)) (command_list (undo_stack w))
                    ++ [length (commands w)])
                 (S (index (undo_stack w)))
    /\ displayed w' = Some r
    /\ current_image w' = current_image w.
Proof.
  intros Heng Hcur.
  unfold apply_effect, thread_finishes. rewrite process_image_unfold.
  set (id := length (commands w)).
  set (cmd := mkCommand e (mkImageState (current_image w) None) None).
  set (st1 := mkStack _ (index (undo_stack w))).
  set (st2 := mkStack _ (S (index (undo_stack w)))).
  unfold process_image_internal. window_simpl. rewrite Hcur. cbn [negb].
  window_simpl.
  match goal with
  | |- context [run engine fs ?t ?x] => set (W := x); set (th := t)
  end.
  destruct (Heng (length (engine_calls W)) (input_path th) (thread_effect th)
                 (output_path th)) as (r & Hr & Hex & Hdec).
  exists r. cbv zeta. rewrite (run_returned engine fs th W r Hr).
  set (W3 := foldl _ _ _).
  destruct (emit_progress_fold_frame th
              (reported (engine (length (engine_calls W)) (input_path th)
                                (thread_effect th) (output_path th)))
              (record (EngineCall (input_path th) (thread_effect th) (output_path th)) W))
    as (H1 & H2 & H3).
  fold W3 in H1, H2, H3.
  unfold emit_finished. subst th. cbn [finished_slot].
  unfold processing_complete. rewrite Hex, Hdec. cbn [negb].
  window_simpl. unfold displayed. window_simpl.
  rewrite H1, H2, H3. subst W. window_simpl.
  subst id. rewrite alter_snoc. subst cmd st2. window_simpl.
  repeat split.
Qed.

Lemma apply_all_snoc (engine : Engine) (fs : FileSystem) (es : list string) (e : string)
      (w : MainWindow) :
  apply_all engine fs (es ++ [e]) w = apply_effect engine fs e (apply_all engine fs es w).
Proof. unfold apply_all. rewrite foldl_app. reflexivity. Qed.

(** The history after a run of completed edits: the new commands sit on
    top of the applied prefix, each holds a cached result, and the newest
    result is the one displayed. *)
Lemma apply_all_history (engine : Engine) (fs : FileSystem) (es : list string)
      (w0 : MainWindow) :
  engine_succeeds engine fs ->
  py_bool (current_image w0) = true ->
  (index (undo_stack w0) <= length (command_list (undo_stack w0)))%nat ->
  let w := apply_all engine fs es w0 in
  let n0 := length (commands w0) in
  let i0 := index (undo_stack w0) in
  current_image w = current_image w0
  /\ length (commands w) = (n0 + length es)%nat
  /\ (forall k, (k < length es)%nat ->
        command_list (undo_stack w) !! (i0 + k)%nat = Some (n0 + k)%nat)
  /\ index (undo_stack w) = (i0 + length es)%nat
  /\ (index (undo_stack w) <= length (command_list (undo_stack w)))%nat
  /\ (es <> [] -> length (command_list (undo_stack w)) = (i0 + length es)%nat)
  /\ (forall k, (k < length es)%nat -> exists p, cached w (n0 + k)%nat = Some p)
  /\ (es <> [] -> cached w (n0 + length es - 1)%nat = Some (displayed w)).
Proof.
  intros Heng Hcur Hidx. cbv zeta.
  induction es as [|e es IH] using rev_ind.
  - cbn. rewrite !Nat.add_0_r.
    split; [reflexivity|]. split; [reflexivity|]. split; [intros k Hk; lia|].
    split; [reflexivity|]. split; [exact Hidx|]. split; [contradiction|].
    split; [intros k Hk; lia|contradiction].
  - destruct IH as (Ic & Il & Icl & Ii & Ile & _ & Ip & _).
    rewrite apply_all_snoc.
    set (wp := apply_all engine fs es w0) in *.
    destruct (apply_effect_step engine fs e wp Heng) as (r & Hc & Hst & Hd & Hci);
      [rewrite Ic; exact Hcur|].
    set (w := apply_effect engine fs e wp) in *.
    rewrite length_app. cbn [length].
    assert (Htl : length (take (index (undo_stack wp)) (command_list (undo_stack wp)))
                  = index (undo_stack wp)) by (rewrite length_take; lia).
    split; [congruence|]. split; [rewrite Hc, length_app, Il; cbn; lia|].
    split.
    { intros k Hk. rewrite Hst. cbn [command_list].
      destruct (decide (k < length es)%nat) as [Hlt|Hge].
      - rewrite lookup_app_l by lia. rewrite lookup_take_lt by lia. apply Icl. exact Hlt.
      - replace (index (undo_stack w0) + k)%nat
          with (length (take (index (undo_stack wp)) (command_list (undo_stack wp))))
          by lia.
        rewrite lookup_snoc. f_equal. lia. }
    split; [rewrite Hst; cbn [index]; lia|].
    split; [rewrite Hst; cbn [index command_list]; rewrite length_app, Htl; cbn; lia|].
    split; [intros _; rewrite Hst; cbn [command_list]; rewrite length_app, Htl; cbn; lia|].
    split.
    + intros k Hk. unfold cached. rewrite Hc.
      destruct (decide (k < length es)%nat) as [Hlt|Hge].
      * destruct (Ip k Hlt) as (p & Hp). exists p.
        rewrite lookup_app_l by lia. exact Hp.
      * replace (length (commands w0) + k)%nat with (length (commands wp)) by lia.
        rewrite lookup_snoc. eexists. reflexivity.
    + intros _. unfold cached. rewrite Hc.
      replace (length (commands w0) + (length es + 1) - 1)%nat
        with (length (commands wp)) by lia.
      rewrite lookup_snoc. cbn. rewrite Hd. reflexivity.
Qed.

Lemma engine_ok_succeeds : engine_succeeds engine_ok fs_ok.
Proof. intros n i e o. exists o. repeat split. Qed.

(** C6. On a window with an image loaded, let N effects be applied one
    after the other, each to its completion (the engine returns a path
    that exists and decodes, so each command's [new_state] is populated).
    Then N undos followed by N redos leave the displayed image path as it
    was after the N applications; they make no engine call, start no
    thread, and leave the commands and the history cursor as they were. *)
Theorem undo_all_redo_all (engine : Engine) (fs : FileSystem) (es : list string)
        (w0 : MainWindow) :
  engine_succeeds engine fs ->
  py_bool (current_image w0) = true ->
  (index (undo_stack w0) <= length (command_list (undo_stack w0)))%nat ->
  let w := apply_all engine fs es w0 in
  let N := length es in
  let w' := Nat.iter N stack_redo (Nat.iter N stack_undo w) in
  displayed w' = displayed w
  /\ engine_calls w' = engine_calls w
  /\ started_threads w' = started_threads w
  /\ commands w' = commands w
  /\ undo_stack w' = undo_stack w
  /\ (forall k, (k < N)%nat ->
        exists p, cached w (length (commands w0) + k)%nat = Some p).
Proof.
  intros Heng Hcur Hidx.
  destruct (decide (es = [])) as [->|Hne].
  { cbn. repeat split. intros k Hk. lia. }
  intros w N w'.
  destruct (apply_all_history engine fs es w0 Heng Hcur Hidx)
    as (Hc & Hl & Hlook & Hi & Hle & Hlen & Hp & Hlast).
  fold w in Hc, Hl, Hlook, Hi, Hle, Hlen, Hp, Hlast.
  specialize (Hlen Hne). specialize (Hlast Hne).
  destruct (undo_redo_restores N w) as (Hd & Ht & Hcmd & Hst).
  - rewrite Hi, Hlen. reflexivity.
  - subst N. lia.
  - intros i Hi'. subst N.
    destruct (Hp (i - index (undo_stack w0))%nat) as (p & Hpk); [lia|].
    exists (length (commands w0) + (i - index (undo_stack w0)))%nat, p.
    split; [|exact Hpk].
    rewrite <- (Hlook (i - index (undo_stack w0))%nat) by lia. f_equal. lia.
  - intros HN. subst N.
    exists (length (commands w0) + length es - 1)%nat. split.
    + rewrite Hlen.
      replace (index (undo_stack w0) + length es - 1)%nat
        with (index (undo_stack w0) + (length es - 1))%nat by lia.
      rewrite Hlook by lia. f_equal. lia.
    + exact Hlast.
  - fold w' in Hd, Ht, Hcmd, Hst.
    split; [exact Hd|]. unfold engine_calls, started_threads. rewrite Ht.
    repeat split; assumption.
Qed.

(** Three effects on [a.png], undone and redone. *)
Lemma undo_all_redo_all_witness :
  let w := apply_all engine_ok fs_ok ["grayscale"; "blur"; "sepia"]
             (load_specific_image (Some "a.png") (MainWindow_init "/tmp/tmpab12")) in
  displayed (Nat.iter 3 stack_redo (Nat.iter 3 stack_undo w)) = displayed w
  /\ displayed (Nat.iter 3 stack_undo w) = Some "a.png"
  /\ displayed w = Some "/tmp/tmpab12/temp_a.png".
Proof.
  intros w.
  destruct (undo_all_redo_all engine_ok fs_ok ["grayscale"; "blur"; "sepia"]
              (load_specific_image (Some "a.png") (MainWindow_init "/tmp/tmpab12"))
              engine_ok_succeeds eq_refl (le_n 0)) as (H & _).
  split; [exact H|]. split; vm_compute; reflexivity.
Defined.

(** * Further properties of the code *)

(** ** Batch runs *)

(** X1. With no batch file or no queued effect, [process_batch] only logs
    that there is nothing to do: no engine call, no progress value, the
    progress bar and the processed images are left alone. This is the case
    after [load_batch_images] on a fresh window, although that enables the
    batch button, and after [clear_effects]. *)
Theorem process_batch_nothing_to_do (engine : Engine) (fs : FileSystem) (w : MainWindow) :
  batch_files w = [] \/ effects_queue (batch_processor w) = [] ->
  process_batch engine fs w = logging InfoNoFilesOrEffects w
  /\ engine_calls (process_batch engine fs w) = engine_calls w
  /\ progress_values (process_batch engine fs w) = progress_values w
  /\ (forall tmp files,
        let w0 := load_batch_images files (MainWindow_init tmp) in
        process_batch_button_enabled w0 = bool_decide (files <> [])
        /\ process_batch engine fs w0 = logging InfoNoFilesOrEffects w0)
  /\ process_batch engine fs
       (set_batch_processor (clear_effects (batch_processor w)) w)
     = logging InfoNoFilesOrEffects
         (set_batch_processor (clear_effects (batch_processor w)) w).
Proof.
  intros H.
  assert (E : process_batch engine fs w = logging InfoNoFilesOrEffects w).
  { unfold process_batch, process_batch_body.
    destruct H as [-> | H]; [reflexivity|]. rewrite H.
    destruct (batch_files w); reflexivity. }
  split; [exact E|]. rewrite E. split; [|split; [|split]].
  - unfold engine_calls, logging, record. cbn [trace]. rewrite calls_of_app. apply app_nil_r.
  - unfold progress_values, logging, record. cbn [trace]. rewrite values_of_app.
    apply app_nil_r.
  - intros tmp files w0. subst w0. destruct files as [|f files]; [split; reflexivity|].
    split; [reflexivity|]. unfold process_batch, process_batch_body. reflexivity.
  - unfold process_batch, process_batch_body. cbn [batch_processor set_batch_processor
      clear_effects effects_queue batch_files].
    destruct (batch_files w); reflexivity.
Qed.

Lemma process_batch_nothing_to_do_witness :
  process_batch engine_ok fs_ok (batch_window "/tmp/tmpab12" ["a.png"] [])
  = logging InfoNoFilesOrEffects (batch_window "/tmp/tmpab12" ["a.png"] []).
Proof.
  apply (process_batch_nothing_to_do engine_ok fs_ok
           (batch_window "/tmp/tmpab12" ["a.png"] [])).
  right. reflexivity.
Defined.

Lemma call_errors_app engine (a b : list (string * string * string)) :
  forall n, call_errors engine n (a ++ b)
            = call_errors engine n a ++ call_errors engine (n + length a) b.
Proof.
  induction a as [|[[i e] o] a IH]; intros n.
  - cbn. rewrite Nat.add_0_r. reflexivity.
  - cbn [app call_errors length]. rewrite IH, <- app_assoc.
    replace (S n + length a)%nat with (n + S (length a))%nat by lia. reflexivity.
Qed.

Lemma log_of_file_events engine bp total effects :
  forall n file cur c,
    log_of (file_events engine bp total n file cur effects c)
    = call_errors engine n (file_calls bp file cur effects).
Proof.
  induction effects as [|e rest IH]; intros n file cur c; [reflexivity|].
  cbn [file_events file_calls call_errors]. rewrite log_of_app, IH. f_equal.
  unfold step_events. destruct (outcome _); reflexivity.
Qed.

Lemma log_of_batch_events_errors engine bp total files effects :
  forall n c,
    log_of (batch_events engine bp total n files effects c)
    = call_errors engine n (batch_calls bp files effects).
Proof.
  induction files as [|f rest IH]; intros n c; [reflexivity|].
  cbn [batch_events]. unfold batch_calls. cbn [flat_map].
  fold (batch_calls bp rest effects).
  rewrite log_of_app, log_of_file_events, IH, call_errors_app, length_file_calls.
  reflexivity.
Qed.

Lemma call_errors_only_processing engine calls :
  forall n, Forall (fun l => exists e, l = ErrorProcessing e) (call_errors engine n calls).
Proof.
  induction calls as [|[[i e] o] rest IH]; intros n; [constructor|].
  cbn [call_errors]. apply Forall_app. split; [|apply IH].
  destruct (outcome _); repeat constructor. eauto.
Qed.

(** X2. A batch run with something to do never reports a batch error,
    whatever the engine does: what it adds to the log is one
    [ErrorProcessing] entry for each engine call that raised, in call
    order, followed by [InfoBatchComplete]; it ends with the progress bar
    hidden and the save button enabled. *)
Theorem process_batch_log (engine : Engine) (fs : FileSystem) (w : MainWindow) :
  batch_files w <> [] ->
  effects_queue (batch_processor w) <> [] ->
  let bp := batch_processor w in
  let w' := process_batch engine fs w in
  let errors := call_errors engine (length (engine_calls w))
                  (batch_calls bp (batch_files w) (effects_queue bp)) in
  log w' = log w ++ errors ++ [InfoBatchComplete]
  /\ Forall (fun l => exists e, l = ErrorProcessing e) errors
  /\ (forall e, ErrorBatch e ∉ errors ++ [InfoBatchComplete])
  /\ progress_bar_visible w' = false
  /\ save_button_enabled w' = true.
Proof.
  intros HF HE bp w' errors. subst w'.
  rewrite (process_batch_nonempty engine fs w HF HE). fold bp.
  pose proof (call_errors_only_processing engine
                (batch_calls bp (batch_files w) (effects_queue bp))
                (length (engine_calls w))) as Herr.
  fold errors in Herr.
  split; [|split; [exact Herr|split; [|split; reflexivity]]].
  - unfold log. cbn [trace]. rewrite log_of_app. f_equal.
    change (log_of (ProgressValue 0 :: ?l)) with (log_of l).
    rewrite log_of_app, log_of_batch_events_errors. reflexivity.
  - intros e Hin. apply elem_of_app in Hin as [Hin|Hin].
    + rewrite Forall_forall in Herr. destruct (Herr _ Hin) as (x & Hx). discriminate.
    + apply list_elem_of_singleton in Hin. discriminate.
Qed.

Lemma process_batch_log_witness :
  log (process_batch (engine_failing_at 2) fs_ok
         (batch_window "/tmp/tmpab12" ["a.png"; "b.png"] ["blur"; "sepia"]))
  = [ErrorProcessing "engine failure"; InfoBatchComplete].
Proof.
  assert (HF : batch_files (batch_window "/tmp/tmpab12" ["a.png"; "b.png"]
                              ["blur"; "sepia"]) <> []) by (vm_compute; discriminate).
  assert (HE : effects_queue (batch_processor
                 (batch_window "/tmp/tmpab12" ["a.png"; "b.png"] ["blur"; "sepia"])) <> [])
    by (vm_compute; discriminate).
  destruct (process_batch_log (engine_failing_at 2) fs_ok _ HF HE) as (H & _).
  rewrite H. vm_compute. reflexivity.
Defined.

Lemma get_temp_path_temp_dir (a b : BatchProcessor) (p : string) :
  temp_dir a = temp_dir b -> get_temp_path a p = get_temp_path b p.
Proof. intros H. unfold get_temp_path. rewrite H. reflexivity. Qed.

Lemma file_calls_temp_dir (a b : BatchProcessor) file effects :
  temp_dir a = temp_dir b ->
  forall cur, file_calls a file cur effects = file_calls b file cur effects.
Proof.
  intros H. induction effects as [|e rest IH]; intros cur; [reflexivity|].
  cbn [file_calls]. rewrite IH, (get_temp_path_temp_dir a b file H). reflexivity.
Qed.

Lemma batch_calls_temp_dir (a b : BatchProcessor) files effects :
  temp_dir a = temp_dir b -> batch_calls a files effects = batch_calls b files effects.
Proof.
  intros H. unfold batch_calls.
  induction files as [|f rest IH]; [reflexivity|].
  cbn [flat_map]. rewrite IH, (file_calls_temp_dir a b f effects H). reflexivity.
Qed.

Lemma batch_processed_idempotent (a b : BatchProcessor) files (m : gmap string string) :
  temp_dir a = temp_dir b ->
  batch_processed a files (batch_processed b files m) = batch_processed b files m.
Proof.
  intros H. apply map_eq. intros f. rewrite !batch_processed_lookup.
  destruct (bool_decide (f ∈ files)); [|reflexivity].
  rewrite (get_temp_path_temp_dir a b f H). reflexivity.
Qed.

(** X3. Running the same batch a second time repeats all F*E engine
    calls, again starting from the original files, and leaves
    [processed_images] exactly as the first run left it; batch files,
    queue and temp directory are not changed by a run. *)
Theorem process_batch_twice (engine : Engine) (fs : FileSystem) (w : MainWindow) :
  batch_files w <> [] ->
  effects_queue (batch_processor w) <> [] ->
  let bp := batch_processor w in
  let w1 := process_batch engine fs w in
  let w2 := process_batch engine fs w1 in
  batch_files w1 = batch_files w
  /\ effects_queue (batch_processor w1) = effects_queue bp
  /\ temp_dir (batch_processor w1) = temp_dir bp
  /\ processed_images (batch_processor w2) = processed_images (batch_processor w1)
  /\ engine_calls w2
     = engine_calls w
         ++ batch_calls bp (batch_files w) (effects_queue bp)
         ++ batch_calls bp (batch_files w) (effects_queue bp).
Proof.
  intros HF HE bp w1 w2.
  assert (E1 : batch_files w1 = batch_files w
               /\ effects_queue (batch_processor w1) = effects_queue bp
               /\ temp_dir (batch_processor w1) = temp_dir bp).
  { subst w1. rewrite (process_batch_nonempty engine fs w HF HE). repeat split. }
  destruct E1 as (Ef & Ee & Et).
  assert (HF1 : batch_files w1 <> []) by (rewrite Ef; exact HF).
  assert (HE1 : effects_queue (batch_processor w1) <> []) by (rewrite Ee; exact HE).
  destruct (process_batch_effects engine fs w HF HE) as (Hc & _ & Hp & _).
  destruct (process_batch_effects engine fs w1 HF1 HE1) as (Hc1 & _ & Hp1 & _).
  fold bp w1 in Hc, Hp. fold w2 in Hc1, Hp1.
  split; [exact Ef|]. split; [exact Ee|]. split; [exact Et|]. split.
  - rewrite Hp1, Ef, Hp. apply batch_processed_idempotent. exact Et.
  - rewrite Hc1, Hc, Ef, Ee, <- app_assoc.
    rewrite (batch_calls_temp_dir (batch_processor w1) bp _ _ Et). reflexivity.
Qed.

Lemma process_batch_twice_witness :
  let w := batch_window "/tmp/tmpab12" ["a.png"] ["blur"] in
  processed_images (batch_processor (process_batch engine_ok fs_ok
                                       (process_batch engine_ok fs_ok w)))
  = processed_images (batch_processor (process_batch engine_ok fs_ok w)).
Proof.
  intros w.
  assert (HF : batch_files w <> []) by (vm_compute; discriminate).
  assert (HE : effects_queue (batch_processor w) <> []) by (vm_compute; discriminate).
  destruct (process_batch_twice engine_ok fs_ok w HF HE) as (_ & _ & _ & H & _).
  exact H.
Defined.

(** ** Temp paths *)

Lemma root_Path_cases (s : string) :
  Pathlib.root (Pathlib.Path s) = "" \/ Pathlib.root (Pathlib.Path s) = "/"
  \/ Pathlib.root (Pathlib.Path s) = "//".
Proof.
  unfold Pathlib.Path.
  destruct s as [|c1 s1]; [left; reflexivity|].
  destruct (ascii_dec c1 "/") as [->|N1].
  2:{ left. assert (Pathlib.splitroot (String c1 s1) = ("", String c1 s1)) as ->;
        [|reflexivity].
      destruct c1 as [[] [] [] [] [] [] [] []]; try reflexivity. contradiction. }
  destruct s1 as [|c2 s2]; [right; left; reflexivity|].
  destruct (ascii_dec c2 "/") as [->|N2].
  2:{ right. left.
      assert (Pathlib.splitroot (String "/" (String c2 s2)) = ("/", String c2 s2)) as ->;
        [|reflexivity].
      destruct c2 as [[] [] [] [] [] [] [] []]; try reflexivity. contradiction. }
  destruct s2 as [|c3 s3]; [right; right; reflexivity|].
  destruct (ascii_dec c3 "/") as [->|N3]; [right; left; reflexivity|].
  right. right.
  assert (Pathlib.splitroot (String "/" (String "/" (String c3 s3)))
          = ("//", String c3 s3)) as ->; [|reflexivity].
  destruct c3 as [[] [] [] [] [] [] [] []]; try reflexivity. contradiction.
Qed.

(** The file name of a path printed from a root and components is its
    last component. *)
Lemma name_of_joined (r : string) (t : list string) (x : string) :
  r = "" \/ r = "/" \/ r = "//" ->
  Pathlib.is_part x = true -> Pathlib.has_sep x = false ->
  basename (r +:+ String.concat "/" (t ++ [x])) = x.
Proof.
  intros Hr Hp Hs. unfold basename.
  destruct t as [|a t].
  - cbn [app String.concat].
    destruct Hr as [-> | [-> | ->]].
    + apply PathlibFacts.name_plain; assumption.
    + apply (PathlibFacts.name_last_component "" x); assumption.
    + apply (PathlibFacts.name_last_component "/" x); assumption.
  - rewrite PathlibFacts.concat_snoc by discriminate.
    rewrite <- PathlibFacts.append_assoc.
    apply PathlibFacts.name_last_component; assumption.
Qed.

(** X4. The file name of a temp path is ["temp_"] followed by the file
    name of the original, so [get_temp_path] is not idempotent: deriving
    a temp path from a temp path (what an edit does once [current_image]
    is itself a temp file) prefixes the name again, giving a different
    path with file name ["temp_temp_<name>"]. *)
Theorem basename_get_temp_path (bp : BatchProcessor) (p : string) :
  basename (get_temp_path bp p) = "temp_" +:+ basename p
  /\ basename (get_temp_path bp (get_temp_path bp p)) = "temp_temp_" +:+ basename p
  /\ get_temp_path bp (get_temp_path bp p) <> get_temp_path bp p.
Proof.
  assert (H : forall q, basename (get_temp_path bp q) = "temp_" +:+ basename q).
  { intros q. unfold get_temp_path. fold (basename q).
    rewrite truediv_temp_name, str_nonempty_tail
      by (destruct (Pathlib.tail (Pathlib.Path (temp_dir bp))); discriminate).
    apply name_of_joined.
    - apply root_Path_cases.
    - reflexivity.
    - change (Pathlib.has_sep (basename q) = false). apply PathlibFacts.name_no_sep. }
  split; [apply H|]. split.
  - rewrite H, H. reflexivity.
  - intros E. apply (f_equal basename) in E. rewrite H, H in E.
    apply (f_equal String.length) in E. revert E.
    change (String.length ("temp_" +:+ "temp_" +:+ basename p))
      with (5 + String.length ("temp_" +:+ basename p))%nat.
    lia.
Qed.

(** ** Interactive edits *)

Lemma progress_frame_id (w : MainWindow) : progress_frame w (progress_bar_value w) [] = w.
Proof. destruct w. unfold progress_frame. cbn. rewrite app_nil_r. reflexivity. Qed.

Lemma last_cons_default {A} (x d : A) (xs : list A) :
  List.last (x :: xs) d = List.last xs x.
Proof.
  revert x d. induction xs as [|y xs IH]; intros x d; [reflexivity|].
  change (List.last (x :: y :: xs) d) with (List.last (y :: xs) d).
  rewrite (IH y d), (IH y x). reflexivity.
Qed.

(** The progress values of the engine, delivered to [update_progress]. *)
Lemma emit_progress_connected th (xs : list Z) :
  progress_slot th = true ->
  forall w,
    foldl (fun w x => emit_progress th x w) w xs
    = progress_frame w (List.last xs (progress_bar_value w)) (map ProgressValue xs).
Proof.
  intros H. induction xs as [|x xs IH]; intros w.
  - symmetry. apply progress_frame_id.
  - cbn [foldl]. rewrite IH. unfold emit_progress. rewrite H.
    rewrite last_cons_default.
    unfold progress_frame, update_progress, setValue, record, set_progress_bar_value.
    cbn. rewrite <- app_assoc. reflexivity.
Qed.

(** An edit on a window with an image loaded, up to the point where the
    engine has answered: the command is pushed, the thread started, the
    engine called on the current image, its progress values shown. What
    follows depends on the answer. *)
Lemma apply_effect_unfold (engine : Engine) (fs : FileSystem) (e : string)
      (w : MainWindow) :
  py_bool (current_image w) = true ->
  let id := length (commands w) in
  let th := interactive_thread w e id in
  let R := engine (length (engine_calls w)) (input_path th) e (output_path th) in
  let W := progress_frame (process_image e w)
             (List.last (reported R) (progress_bar_value w))
             (EngineCall (input_path th) e (output_path th)
                :: map ProgressValue (reported R)) in
  apply_effect engine fs e w
  = match outcome R with
    | Returned r => processing_complete fs r (Some id) W
    | Raised x => logging (ErrorProcessing x) W
    end.
Proof.
  intros Hcur id th R W.
  unfold apply_effect, thread_finishes.
  assert (Hth : processing_thread (process_image e w) = Some th).
  { rewrite process_image_unfold. unfold process_image_internal. window_simpl.
    rewrite Hcur. reflexivity. }
  assert (Hcalls : engine_calls (process_image e w) = engine_calls w).
  { rewrite process_image_unfold. unfold engine_calls. window_simpl.
    change (calls_of (trace ?x)) with (engine_calls x).
    destruct (process_image_internal_frame e (Some (length (commands w)))
                (set_undo_stack
                   (mkStack (take (index (undo_stack w)) (command_list (undo_stack w))
                               ++ [length (commands w)]) (index (undo_stack w)))
                   (set_commands
                      (commands w ++ [mkCommand e (mkImageState (current_image w) None)
                                        None]) w)))
      as (_ & _ & _ & _ & _ & _ & He).
    rewrite He. reflexivity. }
  assert (Hpv : progress_bar_value (process_image e w) = progress_bar_value w).
  { rewrite process_image_unfold. unfold process_image_internal. window_simpl.
    rewrite Hcur. reflexivity. }
  rewrite Hth.
  unfold run, try_except, mbind, M_bind, engine_process_image, lift.
  rewrite Hcalls.
  change (input_path th) with (default "" (current_image w)).
  change (thread_effect th) with e.
  change (output_path th)
    with (get_temp_path (batch_processor w) (default "" (current_image w))).
  rewrite emit_progress_connected by reflexivity.
  subst W R. cbv zeta.
  change (input_path th) with (default "" (current_image w)).
  change (output_path th)
    with (get_temp_path (batch_processor w) (default "" (current_image w))).
  set (R := engine _ _ _ _).
  assert (HW : progress_frame
                 (record (EngineCall (default "" (current_image w)) e
                            (get_temp_path (batch_processor w)
                               (default "" (current_image w))))
                    (process_image e w))
                 (List.last (reported R)
                    (progress_bar_value
                       (record (EngineCall (default "" (current_image w)) e
                                  (get_temp_path (batch_processor w)
                                     (default "" (current_image w))))
                          (process_image e w))))
                 (map ProgressValue (reported R))
               = progress_frame (process_image e w)
                   (List.last (reported R) (progress_bar_value w))
                   (EngineCall (default "" (current_image w)) e
                      (get_temp_path (batch_processor w) (default "" (current_image w)))
                      :: map ProgressValue (reported R))).
  { unfold progress_frame, record. cbn [current_image current_processed_image
      batch_files undo_stack batch_processor image_label progress_bar_visible
      progress_bar_value effect_buttons_enabled save_button_enabled
      process_batch_button_enabled processing_thread commands trace].
    rewrite Hpv, <- app_assoc. reflexivity. }
  rewrite HW.
  destruct (outcome R); reflexivity.
Qed.

(** [process_image] on a window with an image loaded, field by field. *)
Lemma process_image_loaded (e : string) (w : MainWindow) :
  py_bool (current_image w) = true ->
  let id := length (commands w) in
  process_image e w
  = mkWindow (current_image w) (current_processed_image w) (batch_files w)
      (mkStack (take (index (undo_stack w)) (command_list (undo_stack w)) ++ [id])
               (S (index (undo_stack w))))
      (add_effect e (batch_processor w)) (image_label w) true (progress_bar_value w)
      (effect_buttons_enabled w) true true (Some (interactive_thread w e id))
      (commands w ++ [mkCommand e (mkImageState (current_image w) None) None])
      (trace w ++ [ThreadStarted (interactive_thread w e id)]).
Proof.
  intros Hcur id. rewrite process_image_unfold. unfold process_image_internal.
  window_simpl. rewrite Hcur. reflexivity.
Qed.

Lemma log_of_progress (xs : list Z) : log_of (map ProgressValue xs) = [].
Proof. induction xs as [|v xs IH]; [reflexivity|exact IH]. Qed.

Lemma calls_of_progress (xs : list Z) : calls_of (map ProgressValue xs) = [].
Proof. induction xs as [|v xs IH]; [reflexivity|exact IH]. Qed.

Lemma processing_complete_frame (fs : FileSystem) (r : string) (c : option nat)
      (w : MainWindow) :
  let w' := processing_complete fs r c w in
  current_image w' = current_image w
  /\ batch_processor w' = batch_processor w
  /\ batch_files w' = batch_files w
  /\ undo_stack w' = undo_stack w
  /\ engine_calls w' = engine_calls w.
Proof.
  unfold processing_complete, engine_calls.
  destruct (file_exists fs r), (decodable fs r), c; cbn [negb]; window_simpl;
    rewrite ?calls_of_app; cbn [calls_of omap]; rewrite ?app_nil_r; repeat split.
Qed.

(** X5. When the engine raises during an interactive edit, no completion
    is handled: pixmap, current image and processed image stay as they
    were, the pushed command keeps an empty [new_state], the failure is
    logged as [ErrorProcessing], and the progress bar, made visible when
    the thread was started, is never hidden again. Redoing that command
    starts a thread again, that is, retries the engine. *)
Theorem interactive_engine_failure (engine : Engine) (fs : FileSystem) (e x : string)
        (w : MainWindow) :
  py_bool (current_image w) = true ->
  outcome (engine (length (engine_calls w)) (default "" (current_image w)) e
                  (get_temp_path (batch_processor w) (default "" (current_image w))))
  = Raised x ->
  let w' := apply_effect engine fs e w in
  let id := length (commands w) in
  image_label w' = image_label w
  /\ current_image w' = current_image w
  /\ current_processed_image w' = current_processed_image w
  /\ progress_bar_visible w' = true
  /\ commands w' = commands w ++ [mkCommand e (mkImageState (current_image w) None) None]
  /\ log w' = log w ++ [ErrorProcessing x]
  /\ started_threads (redo id w') = started_threads w' ++ [interactive_thread w' e id].
Proof.
  intros Hcur Hout w' id. subst w' id.
  rewrite (apply_effect_unfold engine fs e w Hcur). cbv zeta.
  change (input_path (interactive_thread w e (length (commands w))))
    with (default "" (current_image w)).
  change (output_path (interactive_thread w e (length (commands w))))
    with (get_temp_path (batch_processor w) (default "" (current_image w))).
  rewrite Hout, (process_image_loaded e w Hcur). cbv zeta.
  unfold progress_frame, logging, record. window_simpl.
  repeat split.
  - unfold log. cbn [trace]. rewrite !log_of_app.
    change (log_of (EngineCall ?a ?b ?c :: ?l)) with (log_of l).
    rewrite log_of_progress. cbn. rewrite !app_nil_r. reflexivity.
  - unfold redo. window_simpl. rewrite lookup_snoc. window_simpl.
    rewrite process_image_internal_threads. window_simpl. rewrite Hcur. reflexivity.
Qed.

Lemma interactive_engine_failure_witness :
  let w := load_specific_image (Some "a.png") (MainWindow_init "/tmp/tmpab12") in
  progress_bar_visible (apply_effect engine_down fs_ok "blur" w) = true
  /\ log (apply_effect engine_down fs_ok "blur" w) = [ErrorProcessing "engine failure"].
Proof.
  intros w.
  destruct (interactive_engine_failure engine_down fs_ok "blur" "engine failure" w
              eq_refl eq_refl) as (_ & _ & _ & H4 & _ & H6 & _).
  split; [exact H4|exact H6].
Defined.

Lemma apply_effect_call (engine : Engine) (fs : FileSystem) (e : string) (w : MainWindow) :
  py_bool (current_image w) = true ->
  let w' := apply_effect engine fs e w in
  engine_calls w'
  = engine_calls w
      ++ [(default "" (current_image w), e,
           get_temp_path (batch_processor w) (default "" (current_image w)))]
  /\ current_image w' = current_image w
  /\ batch_processor w' = add_effect e (batch_processor w)
  /\ batch_files w' = batch_files w.
Proof.
  intros Hcur w'. subst w'.
  rewrite (apply_effect_unfold engine fs e w Hcur). cbv zeta.
  change (input_path (interactive_thread w e (length (commands w))))
    with (default "" (current_image w)).
  change (output_path (interactive_thread w e (length (commands w))))
    with (get_temp_path (batch_processor w) (default "" (current_image w))).
  set (R := engine _ _ _ _).
  set (W := progress_frame _ _ _).
  assert (HW : engine_calls W
               = engine_calls w
                   ++ [(default "" (current_image w), e,
                        get_temp_path (batch_processor w) (default "" (current_image w)))]
               /\ current_image W = current_image w
               /\ batch_processor W = add_effect e (batch_processor w)
               /\ batch_files W = batch_files w).
  { subst W. rewrite (process_image_loaded e w Hcur). cbv zeta.
    unfold progress_frame, engine_calls. window_simpl. repeat split.
    rewrite !calls_of_app.
    change (calls_of (EngineCall ?a ?b ?c :: ?l)) with ((a, b, c) :: calls_of l).
    rewrite calls_of_progress. cbn. rewrite app_nil_r. reflexivity. }
  destruct HW as (H1 & H2 & H3 & H4).
  destruct (outcome R) as [r|x].
  - destruct (processing_complete_frame fs r (Some (length (commands w))) W)
      as (F1 & F2 & F3 & _ & F5).
    rewrite F1, F2, F3, F5. repeat split; assumption.
  - unfold logging, record, engine_calls in *. window_simpl.
    rewrite calls_of_app. cbn [calls_of omap]. rewrite app_nil_r.
    repeat split; assumption.
Qed.

(** X6. Interactive edits do not chain: completion never changes
    [current_image], so every edit of a run of edits calls the engine on
    the image that was loaded at the start, not on the result of the
    previous edit, and every call writes the same temp path. This holds
    whatever the engine answers. *)
Theorem interactive_edits_read_original (engine : Engine) (fs : FileSystem)
        (es : list string) (w : MainWindow) :
  py_bool (current_image w) = true ->
  let p := default "" (current_image w) in
  let w' := apply_all engine fs es w in
  engine_calls w'
  = engine_calls w ++ map (fun e => (p, e, get_temp_path (batch_processor w) p)) es
  /\ current_image w' = current_image w
  /\ effects_queue (batch_processor w') = effects_queue (batch_processor w) ++ es.
Proof.
  intros Hcur p w'. subst w'.
  assert (H : engine_calls (apply_all engine fs es w)
              = engine_calls w
                  ++ map (fun e => (p, e, get_temp_path (batch_processor w) p)) es
              /\ current_image (apply_all engine fs es w) = current_image w
              /\ effects_queue (batch_processor (apply_all engine fs es w))
                 = effects_queue (batch_processor w) ++ es
              /\ temp_dir (batch_processor (apply_all engine fs es w))
                 = temp_dir (batch_processor w)).
  { induction es as [|e es IH] using rev_ind.
    - cbn. rewrite !app_nil_r. repeat split.
    - destruct IH as (Ic & Icur & Iq & It).
      rewrite apply_all_snoc.
      destruct (apply_effect_call engine fs e (apply_all engine fs es w))
        as (Hc & Hcur' & Hbp & _); [rewrite Icur; exact Hcur|].
      rewrite Hc, Hcur', Hbp, Icur, Ic, map_app, <- app_assoc.
      cbn [map add_effect effects_queue temp_dir].
      rewrite (get_temp_path_temp_dir _ (batch_processor w) _ It), Iq, <- app_assoc.
      repeat split; assumption. }
  destruct H as (H1 & H2 & H3 & _). repeat split; assumption.
Qed.

Lemma interactive_edits_read_original_witness :
  engine_calls (apply_all engine_ok fs_ok ["grayscale"; "blur"]
                  (load_specific_image (Some "a.png") (MainWindow_init "/tmp/tmpab12")))
  = [("a.png", "grayscale", "/tmp/tmpab12/temp_a.png");
     ("a.png", "blur", "/tmp/tmpab12/temp_a.png")].
Proof.
  destruct (interactive_edits_read_original engine_ok fs_ok ["grayscale"; "blur"]
              (load_specific_image (Some "a.png") (MainWindow_init "/tmp/tmpab12"))
              eq_refl) as (H & _).
  rewrite H. reflexivity.
Defined.

(** X7. Undo and redo never touch the batch processor: the effect of an
    undone edit stays in [effects_queue], so a later batch run still
    applies it. This holds for the commands' own [undo] and [redo] and for
    the history steps built on them. *)
Theorem undo_keeps_effects_queue (self : nat) (e : string) (w : MainWindow) :
  batch_processor (undo self w) = batch_processor w
  /\ batch_processor (redo self w) = batch_processor w
  /\ batch_processor (stack_undo w) = batch_processor w
  /\ batch_processor (stack_redo w) = batch_processor w
  /\ effects_queue (batch_processor (stack_undo (process_image e w)))
     = effects_queue (batch_processor w) ++ [e].
Proof.
  assert (Hu : forall c x, batch_processor (undo c x) = batch_processor x).
  { intros c x. unfold undo. destruct (commands x !! c); reflexivity. }
  assert (Hr : forall c x, batch_processor (redo c x) = batch_processor x).
  { intros c x. unfold redo. destruct (commands x !! c) as [cmd|]; [|reflexivity].
    destruct (new_state cmd); [reflexivity|].
    apply (process_image_internal_frame (effect_type cmd) (Some c) x). }
  assert (Hsu : forall x, batch_processor (stack_undo x) = batch_processor x).
  { intros x. unfold stack_undo. destruct (index (undo_stack x)); [reflexivity|].
    destruct (command_list (undo_stack x) !! n); [|reflexivity].
    window_simpl. apply Hu. }
  assert (Hsr : forall x, batch_processor (stack_redo x) = batch_processor x).
  { intros x. unfold stack_redo.
    destruct (command_list (undo_stack x) !! index (undo_stack x)); [|reflexivity].
    window_simpl. apply Hr. }
  split; [apply Hu|]. split; [apply Hr|]. split; [apply Hsu|]. split; [apply Hsr|].
  rewrite Hsu. rewrite process_image_unfold. window_simpl. reflexivity.
Qed.

Lemma process_batch_frame (engine : Engine) (fs : FileSystem) (w : MainWindow) :
  let w' := process_batch engine fs w in
  current_processed_image w' = current_processed_image w
  /\ commands w' = commands w
  /\ current_image w' = current_image w
  /\ image_label w' = image_label w
  /\ undo_stack w' = undo_stack w.
Proof.
  cbv zeta.
  destruct (batch_files w) as [|f files] eqn:EF.
  { unfold process_batch, process_batch_body. rewrite EF. repeat split. }
  destruct (effects_queue (batch_processor w)) as [|e effects] eqn:EE.
  { unfold process_batch, process_batch_body. rewrite EF, EE. repeat split. }
  rewrite process_batch_nonempty by (rewrite ?EF, ?EE; discriminate).
  repeat split.
Qed.

(** X8. The interactive path and the batch path share one temp file per
    file name: after an edit of the loaded image [p] has completed (the
    engine wrote its output path, which exists and decodes), a batch run
    over files that include [p] records for [p] the very path that
    [current_processed_image] and the command's cached [new_state] hold,
    and its last engine call for [p] writes that path. *)
Theorem batch_overwrites_interactive_result (engine : Engine) (fs : FileSystem)
        (e p : string) (w : MainWindow) :
  engine_writes_output engine ->
  current_image w = Some p ->
  py_bool (Some p) = true ->
  file_exists fs (get_temp_path (batch_processor w) p) = true ->
  decodable fs (get_temp_path (batch_processor w) p) = true ->
  p ∈ batch_files w ->
  let t := get_temp_path (batch_processor w) p in
  let w1 := apply_effect engine fs e w in
  let w2 := process_batch engine fs w1 in
  current_processed_image w1 = Some t
  /\ cached w1 (length (commands w)) = Some (Some t)
  /\ current_processed_image w2 = Some t
  /\ cached w2 (length (commands w)) = Some (Some t)
  /\ processed_images (batch_processor w2) !! p = Some t
  /\ (forall c, c ∈ file_calls (batch_processor w1) p p
                      (effects_queue (batch_processor w1)) ->
                c ∈ engine_calls w2 /\ c.2 = t).
Proof.
  intros Heng Hci Hcur Hex Hdec Hin t w1 w2. fold t in Hex, Hdec.
  assert (Hcur' : py_bool (current_image w) = true) by (rewrite Hci; exact Hcur).
  assert (E1 : w1 = processing_complete fs t (Some (length (commands w)))
                      (progress_frame (process_image e w)
                         (List.last (reported (engine (length (engine_calls w)) p e t))
                                    (progress_bar_value w))
                         (EngineCall p e t
                            :: map ProgressValue
                                 (reported (engine (length (engine_calls w)) p e t))))).
  { subst w1. rewrite (apply_effect_unfold engine fs e w Hcur'). cbv zeta.
    change (input_path (interactive_thread w e (length (commands w))))
      with (default "" (current_image w)).
    change (output_path (interactive_thread w e (length (commands w))))
      with (get_temp_path (batch_processor w) (default "" (current_image w))).
    rewrite Hci. cbn [default]. fold t. rewrite (Heng _ p e t). reflexivity. }
  assert (S1 : current_processed_image w1 = Some t
               /\ cached w1 (length (commands w)) = Some (Some t)
               /\ batch_files w1 = batch_files w
               /\ batch_processor w1 = add_effect e (batch_processor w)).
  { rewrite E1, (process_image_loaded e w Hcur'). cbv zeta.
    unfold processing_complete. fold t. rewrite Hex, Hdec. cbn [negb].
    unfold progress_frame, cached. window_simpl. rewrite alter_snoc, lookup_snoc.
    repeat split. }
  destruct S1 as (Hcpi & Hcached & Hbf & Hbp).
  assert (HF : batch_files w1 <> []).
  { rewrite Hbf. intros E. rewrite E in Hin. apply elem_of_nil in Hin. contradiction. }
  assert (HE : effects_queue (batch_processor w1) <> []).
  { rewrite Hbp. cbn. destruct (effects_queue (batch_processor w)); discriminate. }
  destruct (process_batch_frame engine fs w1) as (F1 & F2 & _).
  destruct (process_batch_effects engine fs w1 HF HE) as (Hc & _ & _ & Hp & _).
  fold w2 in F1, F2, Hc, Hp.
  assert (Ht : get_temp_path (batch_processor w1) p = t).
  { subst t. apply get_temp_path_temp_dir. rewrite Hbp. reflexivity. }
  split; [exact Hcpi|]. split; [exact Hcached|].
  split; [rewrite F1; exact Hcpi|].
  split; [rewrite (cached_commands w1 w2 _ F2); exact Hcached|].
  split; [rewrite Hp by (rewrite Hbf; exact Hin); rewrite Ht; reflexivity|].
  intros c Hcall. split.
  - rewrite Hc. apply elem_of_app. right.
    apply (file_calls_in_batch_calls _ _ _ p); [rewrite Hbf; exact Hin|exact Hcall].
  - rewrite <- Ht. eapply file_calls_output. exact Hcall.
Qed.

Lemma engine_ok_writes_output : engine_writes_output engine_ok.
Proof. intros n i e o. reflexivity. Qed.

Lemma batch_overwrites_interactive_result_witness :
  let w := load_specific_image (Some "a.png")
             (load_batch_images ["a.png"; "b.png"] (MainWindow_init "/tmp/tmpab12")) in
  let w2 := process_batch engine_ok fs_ok (apply_effect engine_ok fs_ok "blur" w) in
  current_processed_image w2 = Some "/tmp/tmpab12/temp_a.png"
  /\ processed_images (batch_processor w2) !! "a.png" = Some "/tmp/tmpab12/temp_a.png".
Proof.
  intros w w2.
  assert (Hin : "a.png" ∈ batch_files w) by (apply elem_of_cons; left; reflexivity).
  destruct (batch_overwrites_interactive_result engine_ok fs_ok "blur" "a.png" w
              engine_ok_writes_output eq_refl eq_refl eq_refl eq_refl Hin)
    as (_ & _ & H3 & _ & H5 & _).
  split; [exact H3|exact H5].
Defined.

(** ** Loading and previewing *)

Lemma next_with_name_spec (text : string) (files : list string) :
  match next_with_name text files with
  | Ok h =>
      exists k : nat,
        files !! k = Some h /\ basename h = text
        /\ forall (k' : nat) h', (k' < k)%nat -> files !! k' = Some h' -> basename h' <> text
  | Exception e => e = "StopIteration" /\ text ∉ map basename files
  end.
Proof.
  induction files as [|p rest IH]; cbn [next_with_name].
  - split; [reflexivity|]. cbn. apply not_elem_of_nil.
  - destruct (String.eqb_spec (basename p) text) as [E|N].
    + exists 0%nat. split; [reflexivity|]. split; [exact E|]. intros k' h' Hk. lia.
    + destruct (next_with_name text rest) as [h|e].
      * destruct IH as (k & Hk & Hb & Hfirst). exists (S k).
        split; [exact Hk|]. split; [exact Hb|].
        intros [|k'] h' Hlt Hl.
        -- cbn in Hl. injection Hl as <-. exact N.
        -- apply (Hfirst k' h'); [lia|exact Hl].
      * destruct IH as (-> & Hnot). split; [reflexivity|].
        cbn [map]. rewrite not_elem_of_cons. split; [congruence|exact Hnot].
Qed.

(** X9. Previewing an item of the batch list loads the first batch file
    whose file name is the item's text: when two batch files share a file
    name, the items of both show the earlier file. For a text that is in
    the list the search never raises; it raises [StopIteration], leaving
    the window as it was, only for a text no batch file has. An item that
    is not the last selected one is ignored. *)
Theorem preview_loads_first_match (text : string) (w : MainWindow) :
  (text ∈ batch_list w ->
   exists (k : nat) h,
     batch_files w !! k = Some h /\ basename h = text
     /\ (forall (k' : nat) h', (k' < k)%nat -> batch_files w !! k' = Some h' ->
                               basename h' <> text)
     /\ preview_batch_image text true w = (Ok tt, load_specific_image (Some h) w))
  /\ (forall (i j : nat) f g,
        (j < i)%nat -> batch_files w !! j = Some f -> batch_files w !! i = Some g ->
        basename f = basename g ->
        exists (k : nat) h,
          (k <= j)%nat /\ batch_files w !! k = Some h
          /\ preview_batch_image (basename g) true w
             = (Ok tt, load_specific_image (Some h) w))
  /\ (text ∉ batch_list w ->
      preview_batch_image text true w = (Exception "StopIteration", w))
  /\ preview_batch_image text false w = (Ok tt, w).
Proof.
  assert (Hin : forall t, t ∈ batch_list w ->
            exists (k : nat) h,
              batch_files w !! k = Some h /\ basename h = t
              /\ (forall (k' : nat) h', (k' < k)%nat -> batch_files w !! k' = Some h' ->
                                        basename h' <> t)
              /\ preview_batch_image t true w = (Ok tt, load_specific_image (Some h) w)).
  { intros t Ht. unfold preview_batch_image.
    pose proof (next_with_name_spec t (batch_files w)) as Hs.
    destruct (next_with_name t (batch_files w)) as [h|e].
    - destruct Hs as (k & Hk & Hb & Hfirst). exists k, h. repeat split; assumption.
    - destruct Hs as (_ & Hnot). contradiction. }
  split; [apply Hin|]. split; [|split].
  - intros i j f g Hlt Hj Hi Hb.
    destruct (Hin (basename g)) as (k & h & Hk & Hbh & Hfirst & Hp).
    { unfold batch_list. apply list_elem_of_fmap. exists g. split; [reflexivity|].
      apply list_elem_of_lookup. exists i. exact Hi. }
    exists k, h. split; [|split; assumption].
    destruct (le_lt_dec k j) as [Hle|Hgt]; [exact Hle|].
    exfalso. apply (Hfirst j f Hgt Hj). exact Hb.
  - intros Hnot. unfold preview_batch_image.
    pose proof (next_with_name_spec text (batch_files w)) as Hs.
    destruct (next_with_name text (batch_files w)) as [h|e].
    + destruct Hs as (k & Hk & Hb & _). exfalso. apply Hnot.
      unfold batch_list. apply list_elem_of_fmap. exists h. split; [symmetry; exact Hb|].
      apply list_elem_of_lookup. exists k. exact Hk.
    + destruct Hs as (-> & _). reflexivity.
  - reflexivity.
Qed.

Lemma preview_loads_first_match_witness :
  let w := load_batch_images ["x/a.png"; "b.png"; "y/a.png"]
             (MainWindow_init "/tmp/tmpab12") in
  batch_list w = ["a.png"; "b.png"; "a.png"]
  /\ exists (k : nat) h,
       (k <= 0)%nat /\ batch_files w !! k = Some h
       /\ preview_batch_image (basename "y/a.png") true w
          = (Ok tt, load_specific_image (Some h) w).
Proof.
  intros w. split; [reflexivity|].
  destruct (preview_loads_first_match "a.png" w) as (_ & H & _).
  apply (H 2%nat 0%nat "x/a.png" "y/a.png"); [lia|reflexivity|reflexivity|reflexivity].
Defined.

(** X10. [load_image] makes the first chosen file the current and
    displayed image and appends only the remaining files to the batch: the
    first file is not added to the batch. With a single file the batch
    files and the batch button are untouched, and an empty choice changes
    nothing. In no case is the undo history or any command cleared. *)
Theorem load_image_first_is_current (first : string) (rest : list string)
        (w : MainWindow) :
  let w' := load_image (first :: rest) w in
  current_image w' = Some first
  /\ displayed w' = Some first
  /\ batch_files w' = batch_files w ++ rest
  /\ (rest = [] -> process_batch_button_enabled w' = process_batch_button_enabled w)
  /\ (rest <> [] -> process_batch_button_enabled w' = true)
  /\ undo_stack w' = undo_stack w
  /\ commands w' = commands w
  /\ batch_processor w' = batch_processor w
  /\ load_image [] w = w.
Proof.
  cbv zeta. unfold load_image, update_batch_list.
  destruct rest as [|r rest].
  - rewrite app_nil_r. repeat split. intros H. contradiction.
  - window_simpl. unfold displayed. window_simpl. repeat split; [discriminate|].
    intros _. apply bool_decide_eq_true_2.
    destruct (batch_files w); discriminate.
Qed.

(** ** Saving *)

Lemma copy_processed_unbound (copy2 : Copier) (save_dir : string)
      (items : list (string * string)) :
  items <> [] ->
  copy_processed copy2 false save_dir items = (Exception unbound_shutil, []).
Proof. destruct items as [|[o p] rest]; [contradiction|reflexivity]. Qed.

Lemma copy_processed_all_ok (copy2 : Copier) (save_dir : string)
      (items : list (string * string)) :
  Forall (fun sd => copy2 sd.1 sd.2 = None) (save_attempts save_dir items) ->
  copy_processed copy2 true save_dir items
  = (Ok tt, copy_events (save_attempts save_dir items)).
Proof.
  induction items as [|[o p] rest IH]; intros H; [reflexivity|].
  cbn [save_attempts map] in H. inversion H as [|? ? H1 H2]; subst.
  cbn [copy_processed]. cbn [fst snd] in H1. rewrite H1.
  rewrite (IH H2). reflexivity.
Qed.

Lemma copy_processed_fails (copy2 : Copier) (save_dir : string)
      (items : list (string * string)) :
  forall before sd after err,
    save_attempts save_dir items = before ++ sd :: after ->
    Forall (fun sd => copy2 sd.1 sd.2 = None) before ->
    copy2 sd.1 sd.2 = Some err ->
    copy_processed copy2 true save_dir items
    = (Exception err, copy_events (before ++ [sd])).
Proof.
  induction items as [|[o p] rest IH]; intros before sd after err Hs Hb Herr.
  - destruct before; discriminate.
  - cbn [save_attempts map fst snd] in Hs. cbn [copy_processed].
    destruct before as [|b before].
    + cbn [app] in Hs. injection Hs as <- _. cbn [fst snd] in Herr. rewrite Herr.
      reflexivity.
    + cbn [app] in Hs. injection Hs as <- Hs.
      inversion Hb as [|? ? H1 H2]; subst. cbn [fst snd] in H1. rewrite H1.
      rewrite (IH before sd after err Hs H2 Herr). reflexivity.
Qed.

(** X11. [save_processed_images] executes [import shutil] only inside
    the block for the current processed image. With batch results to save
    but no current processed image, the first [shutil.copy2] of the loop
    reads an unbound local name: not a single file is copied and the
    function logs an error, whichever directory was chosen and whatever
    the order of the items. *)
Theorem save_processed_images_unbound_shutil (copy2 : Copier) (save_dir : string)
        (items : list (string * string)) (w : MainWindow) :
  py_bool (current_processed_image w) = false ->
  processed_images (batch_processor w) <> ∅ ->
  items ≡ₚ map_to_list (processed_images (batch_processor w)) ->
  save_dir <> "" ->
  save_processed_images copy2 save_dir items w
  = [SaveLogged (ErrorSavingFiles unbound_shutil)]
  /\ copies_of (save_processed_images copy2 save_dir items w) = [].
Proof.
  intros Hcpi Hne Hperm Hdir.
  assert (Hitems : items <> []).
  { intros ->. apply Permutation_nil_l in Hperm. symmetry in Hperm.
    apply map_to_list_empty_iff in Hperm. contradiction. }
  assert (E : save_processed_images copy2 save_dir items w
              = [SaveLogged (ErrorSavingFiles unbound_shutil)]).
  { unfold save_processed_images.
    rewrite bool_decide_eq_false_2 by exact Hne. cbn [andb].
    destruct save_dir as [|c s]; [contradiction|].
    assert (Hc : copy_current copy2 (String c s) w = (Ok tt, [], false)).
    { unfold copy_current. destruct (current_processed_image w) as [[|] |];
        [reflexivity|discriminate|reflexivity]. }
    rewrite Hc, (copy_processed_unbound copy2 _ items Hitems). reflexivity. }
  rewrite E. split; reflexivity.
Qed.

(** A batch run on a window where an effect was queued while no image was
    loaded: there is a result to save, and saving copies nothing. *)
Lemma save_processed_images_unbound_shutil_witness :
  let w := process_batch engine_ok fs_ok
             (process_image "blur"
                (load_batch_images ["a.png"] (MainWindow_init "/tmp/tmpab12"))) in
  processed_images (batch_processor w) !! "a.png" = Some "/tmp/tmpab12/temp_a.png"
  /\ save_processed_images copy_ok "/home/u/out"
       (map_to_list (processed_images (batch_processor w))) w
     = [SaveLogged (ErrorSavingFiles unbound_shutil)].
Proof.
  intros w. split; [vm_compute; reflexivity|].
  apply (save_processed_images_unbound_shutil copy_ok "/home/u/out"
           (map_to_list (processed_images (batch_processor w))) w).
  - reflexivity.
  - intros E. apply (f_equal (fun m : gmap string string => m !! "a.png")) in E.
    vm_compute in E. discriminate.
  - reflexivity.
  - discriminate.
Defined.

(** X12. With a current processed image and a current image,
    [save_processed_images] first copies the current processed image to
    [save_dir/processed_<name of current_image>], then every processed
    batch file to [save_dir/processed_<name of its original>], in the
    order of the items. When every copy succeeds it logs success. The
    first copy that raises ends the function: no later copy is attempted
    and one error is logged. A batch original with the file name of the
    current image is copied onto the destination of the current image. *)
Theorem save_processed_images_copies (copy2 : Copier) (save_dir cpi ci : string)
        (items : list (string * string)) (w : MainWindow) :
  current_processed_image w = Some cpi ->
  py_bool (Some cpi) = true ->
  current_image w = Some ci ->
  save_dir <> "" ->
  let attempts := (cpi, processed_output_path save_dir ci)
                    :: save_attempts save_dir items in
  (Forall (fun sd => copy2 sd.1 sd.2 = None) attempts ->
   save_processed_images copy2 save_dir items w
   = copy_events attempts ++ [SaveLogged (InfoSavedAll save_dir)])
  /\ (forall before sd after err,
        attempts = before ++ sd :: after ->
        Forall (fun sd => copy2 sd.1 sd.2 = None) before ->
        copy2 sd.1 sd.2 = Some err ->
        save_processed_images copy2 save_dir items w
        = copy_events (before ++ [sd]) ++ [SaveLogged (ErrorSavingFiles err)])
  /\ (forall o p, (o, p) ∈ items -> basename o = basename ci ->
        (p, processed_output_path save_dir ci) ∈ attempts).
Proof.
  intros Hcpi Htruthy Hci Hdir attempts.
  assert (Hhead : save_processed_images copy2 save_dir items w
                  = match copy2 cpi (processed_output_path save_dir ci) with
                    | Some e => [Copy cpi (processed_output_path save_dir ci);
                                 SaveLogged (ErrorSavingFiles e)]
                    | None =>
                        match copy_processed copy2 true save_dir items with
                        | (Exception e, evs') =>
                            Copy cpi (processed_output_path save_dir ci)
                              :: evs' ++ [SaveLogged (ErrorSavingFiles e)]
                        | (Ok _, evs') =>
                            Copy cpi (processed_output_path save_dir ci)
                              :: evs' ++ [SaveLogged (InfoSavedAll save_dir)]
                        end
                    end).
  { unfold save_processed_images. rewrite Hcpi, Htruthy.
    rewrite andb_false_r.
    destruct save_dir as [|c s]; [contradiction|].
    unfold copy_current. rewrite Hcpi, Hci.
    destruct cpi as [|c0 s0]; [discriminate|].
    destruct (copy2 (String c0 s0) (processed_output_path (String c s) ci));
      [reflexivity|].
    destruct (copy_processed copy2 true (String c s) items) as [[u|e] evs']; reflexivity. }
  split; [|split].
  - intros Hall. subst attempts. inversion Hall as [|? ? H1 H2]; subst.
    cbn [fst snd] in H1. rewrite Hhead, H1, (copy_processed_all_ok _ _ _ H2).
    reflexivity.
  - intros before sd after err Hatt Hb Herr. rewrite Hhead. subst attempts.
    destruct before as [|b before].
    + cbn [app] in Hatt. injection Hatt as <- _. cbn [fst snd] in Herr.
      rewrite Herr. reflexivity.
    + cbn [app] in Hatt. injection Hatt as <- Hatt.
      inversion Hb as [|? ? H1 H2]; subst. cbn [fst snd] in H1. rewrite H1.
      rewrite (copy_processed_fails _ _ _ before sd after err Hatt H2 Herr).
      reflexivity.
  - intros o p Hin Hname. subst attempts. apply elem_of_cons. right.
    unfold save_attempts. apply list_elem_of_fmap. exists (o, p).
    split; [|exact Hin]. cbn [fst snd]. unfold processed_output_path.
    fold (basename o) (basename ci). rewrite Hname. reflexivity.
Qed.

(** The second of three copies fails: the third is not attempted. *)
Lemma save_processed_images_copies_witness :
  let w := process_batch engine_ok fs_ok
             (apply_effect engine_ok fs_ok "blur"
                (load_specific_image (Some "c.png")
                   (load_batch_images ["a.png"; "b.png"]
                      (MainWindow_init "/tmp/tmpab12")))) in
  save_processed_images (copy_failing_on "/out/processed_a.png") "/out"
    [("a.png", "/tmp/tmpab12/temp_a.png"); ("b.png", "/tmp/tmpab12/temp_b.png")] w
  = [Copy "/tmp/tmpab12/temp_c.png" "/out/processed_c.png";
     Copy "/tmp/tmpab12/temp_a.png" "/out/processed_a.png";
     SaveLogged (ErrorSavingFiles "disk full")].
Proof.
  intros w.
  destruct (save_processed_images_copies (copy_failing_on "/out/processed_a.png")
              "/out" "/tmp/tmpab12/temp_c.png" "c.png"
              [("a.png", "/tmp/tmpab12/temp_a.png"); ("b.png", "/tmp/tmpab12/temp_b.png")]
              w) as (_ & H & _);
    [vm_compute; reflexivity|reflexivity|vm_compute; reflexivity|discriminate|].
  apply (H [("/tmp/tmpab12/temp_c.png", "/out/processed_c.png")]
           ("/tmp/tmpab12/temp_a.png", "/out/processed_a.png")
           [("/tmp/tmpab12/temp_b.png", "/out/processed_b.png")] "disk full").
  - vm_compute. reflexivity.
  - repeat constructor.
  - reflexivity.
Defined.
